(** * spring_config.py: routing, merging and writing of Spring Cloud Config
    properties.

    A shallow embedding of [src/lib/spring_config.py] with the properties of
    its routing and merge engine.  The program runs under Python 3 (it
    imports [urllib.request] and calls [print(..., file=...)]), and the
    embedding follows Python 3's semantics of [print], [bytes], [dict] and
    files opened in binary mode.

    Conventions.
    - A Python [str] is a [string] whose characters are the code points
      U+0000..U+00FF; a Python [bytes] object is a [string] of bytes.
    - A [dict] whose order shows in the output (a property source, a rule's
      bucket) is an association list in insertion order.
    - Standard output, standard error and the file system form the [world];
      effectful code is a function from the world to an outcome and a world. *)

From Stdlib Require Import ZArith String Ascii List Lia DecimalString.
From stdpp Require Import base option list strings gmap.

Local Open Scope string_scope.
Local Open Scope Z_scope.

(** ** Python strings and bytes *)

Module Py.

(** [s.startswith(p)] *)
Fixpoint startswith (s p : string) {struct p} : bool :=
  match p, s with
  | EmptyString, _ => true
  | String a p', String b s' => Ascii.eqb a b && startswith s' p'
  | String _ _, EmptyString => false
  end.

(** [s[n:]] *)
Fixpoint slice_from (n : nat) (s : string) : string :=
  match n, s with
  | O, _ => s
  | S n', String _ s' => slice_from n' s'
  | S _, EmptyString => EmptyString
  end.

(** The split of [s] at its last [sep], when it has one. *)
Fixpoint rpartition (sep : ascii) (s : string) : option (string * string) :=
  match s with
  | EmptyString => None
  | String c s' =>
      match rpartition sep s' with
      | Some (a, b) => Some (String c a, b)
      | None => if Ascii.eqb c sep then Some (EmptyString, s') else None
      end
  end.

(** [s.rsplit(sep, 1)] for a one-character separator: one part when [sep]
    does not occur in [s], else the text before and after its last
    occurrence. *)
Definition rsplit1 (sep : ascii) (s : string) : list string :=
  match rpartition sep s with
  | Some (a, b) => [a; b]
  | None => [s]
  end.

(** [s.split(sep, 1)]: the split at the first occurrence. *)
Fixpoint split1 (sep : ascii) (s : string) : list string :=
  match s with
  | EmptyString => [EmptyString]
  | String c s' =>
      if Ascii.eqb c sep then [EmptyString; s']
      else match split1 sep s' with
           | a :: rest => String c a :: rest
           | [] => [String c EmptyString]
           end
  end.

(** [s.splitlines()] for text whose only line break is the line feed. *)
Fixpoint splitlines_aux (cur : string) (s : string) : list string :=
  match s with
  | EmptyString => match cur with EmptyString => [] | _ => [cur] end
  | String c s' =>
      if Ascii.eqb c "010"%char then cur :: splitlines_aux EmptyString s'
      else splitlines_aux (cur +:+ String c EmptyString) s'
  end.

Definition splitlines (s : string) : list string := splitlines_aux EmptyString s.

Definition code (c : ascii) : N := N_of_ascii c.

Definition hex_digit (n : N) : ascii :=
  match n with
  | 0 => "0" | 1 => "1" | 2 => "2" | 3 => "3" | 4 => "4" | 5 => "5"
  | 6 => "6" | 7 => "7" | 8 => "8" | 9 => "9" | 10 => "a" | 11 => "b"
  | 12 => "c" | 13 => "d" | 14 => "e" | _ => "f"
  end%N%char.

(** Two lower-case hexadecimal digits of a byte. *)
Definition hex2 (c : ascii) : string :=
  String (hex_digit (code c / 16)) (String (hex_digit (code c mod 16)) EmptyString).

(** [s.encode()]: UTF-8; a code point below U+0080 is one byte, the others
    of this range are two. *)
Fixpoint encode (s : string) : string :=
  match s with
  | EmptyString => EmptyString
  | String c s' =>
      if (code c <? 128)%N then String c (encode s')
      else String (ascii_of_N (192 + code c / 64))
             (String (ascii_of_N (128 + code c mod 64)) (encode s'))
  end.

Fixpoint contains (c : ascii) (s : string) : bool :=
  match s with
  | EmptyString => false
  | String a s' => Ascii.eqb a c || contains c s'
  end.

Definition dquote : ascii := "034"%char.
Definition backslash : ascii := "092"%char.

(** One byte inside [repr] of a bytes object delimited by [quote]. *)
Definition repr_byte (quote c : ascii) : string :=
  if Ascii.eqb c quote || Ascii.eqb c backslash then String backslash (String c EmptyString)
  else if Ascii.eqb c "009"%char then "\t"
  else if Ascii.eqb c "010"%char then "\n"
  else if Ascii.eqb c "013"%char then "\r"
  else if (code c <? 32)%N || (127 <=? code c)%N then "\x" +:+ hex2 c
  else String c EmptyString.

Fixpoint repr_bytes_body (quote : ascii) (b : string) : string :=
  match b with
  | EmptyString => EmptyString
  | String c b' => repr_byte quote c +:+ repr_bytes_body quote b'
  end.

(** [repr(b)] of a bytes object, which is also [str(b)]: [b'...'], with
    double quotes when the bytes hold a single quote and no double quote. *)
Definition repr_bytes (b : string) : string :=
  let quote :=
    if contains "'"%char b && negb (contains dquote b) then dquote else "'"%char in
  String "b"%char (String quote (repr_bytes_body quote b +:+ String quote EmptyString)).

(** [str(n)] of an integer. *)
Definition str_int (z : Z) : string := NilZero.string_of_int (Z.to_int z).

End Py.

(** ** Regular expressions, as [re.match] uses them

    A rule's [filter] is held as the abstract syntax of its pattern.
    [re.match(pattern, key)] succeeds when the pattern matches a prefix of
    [key]; the search backtracks, so it succeeds exactly when some way of
    matching exists.  [ends k r s] lists what can remain of [s] after a
    match of [r] at its start; [k] is the length of the whole key. *)

Module Re.

Inductive regex : Type :=
| Eps                                                 (* the empty pattern *)
| Lit (c : ascii)                                     (* a character, [\.] *)
| Any                                                 (* [.] *)
| Class (negated : bool) (ranges : list (ascii * ascii))   (* [[a-z0-9]] *)
| Seq (r1 r2 : regex)                                 (* [r1r2] *)
| Alt (r1 r2 : regex)                                 (* [r1|r2] *)
| Star (r : regex)                                    (* [r*] *)
| Plus (r : regex)                                    (* [r+] *)
| Opt (r : regex)                                     (* [r?] *)
| Bol                                                 (* [^] *)
| Eol.                                                (* [$] *)

Definition newline : ascii := "010"%char.

Definition in_ranges (ranges : list (ascii * ascii)) (c : ascii) : bool :=
  existsb (fun '(lo, hi) => (Py.code lo <=? Py.code c)%N && (Py.code c <=? Py.code hi)%N) ranges.

(** Repetition of a matcher [f]: zero or more times, each repetition
    consuming at least one character. *)
Fixpoint star_iter (f : string -> list string) (fuel : nat) (s : string) : list string :=
  s :: match fuel with
       | O => []
       | S fuel' =>
           flat_map (fun s' => if (String.length s' <? String.length s)%nat
                               then star_iter f fuel' s' else [])
                    (f s)
       end.

Fixpoint ends (k : nat) (r : regex) (s : string) : list string :=
  match r with
  | Eps => [s]
  | Lit c => match s with
             | String a s' => if Ascii.eqb a c then [s'] else []
             | EmptyString => []
             end
  | Any => match s with
           | String a s' => if Ascii.eqb a newline then [] else [s']
           | EmptyString => []
           end
  | Class negated ranges =>
      match s with
      | String a s' => if xorb negated (in_ranges ranges a) then [s'] else []
      | EmptyString => []
      end
  | Seq r1 r2 => flat_map (ends k r2) (ends k r1 s)
  | Alt r1 r2 => ends k r1 s ++ ends k r2 s
  | Star r1 => star_iter (ends k r1) (String.length s) s
  | Plus r1 => flat_map (fun s' => star_iter (ends k r1) (String.length s') s') (ends k r1 s)
  | Opt r1 => ends k r1 s ++ [s]
  | Bol => if (String.length s =? k)%nat then [s] else []
  | Eol => match s with
           | EmptyString => [s]
           | String a EmptyString => if Ascii.eqb a newline then [s] else []
           | _ => []
           end
  end.

(** [re.match(r, key) is not None] *)
Definition matches (r : regex) (key : string) : bool :=
  match ends (String.length key) r key with
  | [] => false
  | _ :: _ => true
  end.

End Re.

(** ** Values, dictionaries and the effects of the program *)

(** A property value, as [json.load] returns it: a string, an integer or a
    boolean (numbers with a fraction are left out). *)
Inductive scalar : Type :=
| VStr (s : string)
| VInt (n : Z)
| VBool (b : bool).

(** [str(v)], what [print] writes for [v]. *)
Definition str (v : scalar) : string :=
  match v with
  | VStr s => s
  | VInt n => Py.str_int n
  | VBool true => "True"
  | VBool false => "False"
  end.

(** A [dict] with string keys, in insertion order. *)
Definition dict (V : Type) : Type := list (string * V).

(** [d.get(k)] *)
Fixpoint dict_get {V : Type} (d : dict V) (k : string) : option V :=
  match d with
  | [] => None
  | (k', v) :: d' => if String.eqb k' k then Some v else dict_get d' k
  end.

(** [d[k] = v]: a key already present keeps its place, a new key goes last. *)
Fixpoint dict_set {V : Type} (d : dict V) (k : string) (v : V) : dict V :=
  match d with
  | [] => [(k, v)]
  | (k', v') :: d' => if String.eqb k' k then (k', v) :: d' else (k', v') :: dict_set d' k v
  end.

(** The exceptions the program can meet.  [OSError] stands for the errors
    of the operating system other than the one of the empty path: a missing
    directory, a directory in the place of the file, a permission that is
    refused; their subclasses are not told apart. *)
Inductive exn : Type :=
| TypeError
| AttributeError
| ValueError
| FileNotFoundError
| OSError
| URLError (reason : string)
| HTTPError (code : Z) (msg : string) (body : string).

(** How a call ends: it returns, an exception leaves it, or [sys.exit]
    was called. *)
Inductive outcome (A : Type) : Type :=
| Returned (a : A)
| Raised (e : exn)
| Exited (status : Z).

Arguments Returned {A} a.
Arguments Raised {A} e.
Arguments Exited {A} status.

(** What the program writes: the two standard streams and the content of
    the files; and what the file system refuses: the paths that cannot be
    opened for writing (a directory that does not exist, a path that is a
    directory, a permission that is refused).  The program does not change
    the latter. *)
Record world : Type := MkWorld {
  stdout : string;
  stderr : string;
  files : gmap string string;
  unopenable : gset string
}.

(** A world whose file system refuses no path. *)
Definition World (out err : string) (fs : gmap string string) : world :=
  MkWorld out err fs ∅.

Definition M (A : Type) : Type := world -> outcome A * world.

#[global] Instance M_ret : MRet M := fun A a w => (Returned a, w).

#[global] Instance M_bind : MBind M := fun A B f c w =>
  match c w with
  | (Returned a, w') => f a w'
  | (Raised e, w') => (Raised e, w')
  | (Exited n, w') => (Exited n, w')
  end.

Definition raise {A : Type} (e : exn) : M A := fun w => (Raised e, w).

(** [sys.exit(status)] *)
Definition sys_exit {A : Type} (status : Z) : M A := fun w => (Exited status, w).

(** [for x in l: body(x)] *)
Fixpoint for_each {A : Type} (body : A -> M unit) (l : list A) : M unit :=
  match l with
  | [] => mret tt
  | x :: l' => body x;; for_each body l'
  end.

(** An open file object: a standard stream, which is a text file, or a file
    opened with mode ['wb']. *)
Inductive file : Type :=
| Stdout
| Stderr
| Binary (name : string).

(** [f.write(s)] for a [str] [s].  A binary file takes bytes only. *)
Definition write (f : file) (s : string) : M unit := fun w =>
  match f with
  | Stdout => (Returned tt, MkWorld (stdout w +:+ s) (stderr w) (files w) (unopenable w))
  | Stderr => (Returned tt, MkWorld (stdout w) (stderr w +:+ s) (files w) (unopenable w))
  | Binary _ => (Raised TypeError, w)
  end.

Definition nl : string := String "010"%char EmptyString.

(** [" ".join(args)] *)
Fixpoint join_sp (args : list string) : string :=
  match args with
  | [] => EmptyString
  | [a] => a
  | a :: rest => a +:+ " " +:+ join_sp rest
  end.

(** [print(a, b, ..., file=f)], the arguments already converted with [str]: the
    arguments separated by spaces, then a line feed. *)
Definition print (f : file) (args : list string) : M unit :=
  write f (join_sp args +:+ nl).

(** The last component of a path. *)
Definition last_component (name : string) : string :=
  match Py.rpartition "/" name with
  | Some (_, b) => b
  | None => name
  end.

(** A path that names a directory whatever the file system holds: its last
    component is empty, [.] or [..]. *)
Definition names_directory (name : string) : bool :=
  String.eqb (last_component name) "" || String.eqb (last_component name) "."
  || String.eqb (last_component name) "..".

(** What [open(name, 'wb')] raises, when it raises: [FileNotFoundError] for
    the empty path, [ValueError] for a path that holds a null character, and
    an [OSError] for a path that names a directory or that the file system
    refuses. *)
Definition open_failure (w : world) (name : string) : option exn :=
  if String.eqb name "" then Some FileNotFoundError
  else if Py.contains "000"%char name then Some ValueError
  else if names_directory name || bool_decide (name ∈ unopenable w) then Some OSError
  else None.

(** [with open(name, 'wb') as f: body(f)].  When [open] raises, nothing is
    created and the exception goes on to the caller.  Otherwise opening
    creates the file or empties it; the file is closed however [body] ends,
    and an exception of [body] goes on to the caller. *)
Definition with_open_wb (name : string) (body : file -> M unit) : M unit := fun w =>
  match open_failure w name with
  | Some e => (Raised e, w)
  | None =>
      body (Binary name)
           (MkWorld (stdout w) (stderr w) (<[name := ""]> (files w)) (unopenable w))
  end.

(** ** [json.dump] of a list of pairs *)

Module Json.

(** One character inside a JSON string, as [json] writes it with
    [ensure_ascii]: printable ASCII as it is, the rest escaped. *)
Definition escape_char (c : ascii) : string :=
  if Ascii.eqb c Py.dquote then String Py.backslash (String Py.dquote EmptyString)
  else if Ascii.eqb c Py.backslash then "\\"
  else if Ascii.eqb c "008"%char then "\b"
  else if Ascii.eqb c "012"%char then "\f"
  else if Ascii.eqb c "010"%char then "\n"
  else if Ascii.eqb c "013"%char then "\r"
  else if Ascii.eqb c "009"%char then "\t"
  else if (Py.code c <? 32)%N || (126 <? Py.code c)%N then "\u00" +:+ Py.hex2 c
  else String c EmptyString.

Fixpoint escape (s : string) : string :=
  match s with
  | EmptyString => EmptyString
  | String c s' => escape_char c +:+ escape s'
  end.

Definition string_text (s : string) : string :=
  String Py.dquote (escape s +:+ String Py.dquote EmptyString).

Definition scalar_text (v : scalar) : string :=
  match v with
  | VStr s => string_text s
  | VInt n => Py.str_int n
  | VBool true => "true"
  | VBool false => "false"
  end.

(** A [(key, value)] tuple is written as an array of two items, here at
    nesting depth one of an indented dump. *)
Definition pair_text (kv : string * scalar) : string :=
  "    [" +:+ nl +:+ "        " +:+ string_text kv.1 +:+ "," +:+ nl
  +:+ "        " +:+ scalar_text kv.2 +:+ nl +:+ "    ]".

Fixpoint join_items (items : list string) : string :=
  match items with
  | [] => EmptyString
  | [a] => a
  | a :: rest => a +:+ "," +:+ nl +:+ join_items rest
  end.

(** The text of [json.dump(properties, f, indent=4)] for a list of pairs. *)
Definition dump_pairs (properties : list (string * scalar)) : string :=
  match properties with
  | [] => "[]"
  | _ :: _ => "[" +:+ nl +:+ join_items (map pair_text properties) +:+ nl +:+ "]"
  end.

End Json.

(** ** Target rules *)

(** A target rule, a [dict] with the optional entries ['filter'], ['target'],
    ['format'] and ['properties']; [None] is an absent entry. *)
Record target : Type := Target {
  t_filter : option Re.regex;
  t_target : option string;
  t_format : option string;
  t_properties : option (dict scalar)
}.

(** The bootstrap configuration, the [dict] read from [VCAPX_CONFIG]. *)
Record vcap_config : Type := VcapConfig {
  loglevel : option Z;
  skip_ssl_validation : option bool;
  targets : option (list target)
}.

(** A property source of the server's answer; ['source'] may be absent. *)
Record property_source : Type := PropertySource {
  source : option (dict scalar)
}.

(** The server's answer; ['propertySources'] may be absent. *)
Record config : Type := Config {
  propertySources : option (list property_source)
}.

(** [[0-9A-Z_]] and [[a-z0-9]] *)
Definition upper_class : Re.regex := Re.Class false [("0", "9"); ("A", "Z"); ("_", "_")]%char.
Definition lower_class : Re.regex := Re.Class false [("a", "z"); ("0", "9")]%char.

(** The pattern [.*], the filter of a rule that names none. *)
Definition any_filter : Re.regex := Re.Star Re.Any.

(** The three default rules, [default_targets] in the source. *)

(* 'filter': '[0-9A-Z_]+$', 'target': 'env' *)
Definition env_rule : target :=
  Target (Some (Re.Seq (Re.Plus upper_class) Re.Eol)) (Some "env") None None.

(* 'filter': '([a-z0-9]+\.)+[a-z0-9]+$', 'target': 'file:config-server.properties',
   'format': 'properties' *)
Definition properties_rule : target :=
  Target (Some (Re.Seq (Re.Plus (Re.Seq (Re.Plus lower_class) (Re.Lit ".")))
                       (Re.Seq (Re.Plus lower_class) Re.Eol)))
         (Some "file:config-server.properties") (Some "properties") None.

(* 'filter': '[a-z0-9]+$', 'target': 'file:config-server.yml', 'format': 'yml' *)
Definition yml_rule : target :=
  Target (Some (Re.Seq (Re.Plus lower_class) Re.Eol))
         (Some "file:config-server.yml") (Some "yml") None.

Definition default_targets : list target := [env_rule; properties_rule; yml_rule].

(** ** Routing: [save_config_properties], first loop *)

(** The three assignments made to a rule that matches [key]. *)
Definition assign (key : string) (value : scalar) (t : target) : target :=
  let t1 := Target (t_filter t) (Some (default "stderr" (t_target t))) (t_format t) (t_properties t) in
  let t2 := Target (t_filter t1) (t_target t1) (t_format t1) (Some (default [] (t_properties t1))) in
  Target (t_filter t2) (t_target t2) (t_format t2)
         (Some (dict_set (default [] (t_properties t2)) key value)).

(** [re.match(target.get('filter', '.*'), key) is not None] *)
Definition target_matches (t : target) (key : string) : bool :=
  Re.matches (default any_filter (t_filter t)) key.

(** The loop [for target in targets] for one key: every rule is tested, in
    order; [used] tells whether a rule has matched so far. *)
Fixpoint route_key (log_level : Z) (key : string) (value : scalar)
    (targets : list target) (used : bool) : M (list target * bool) :=
  match targets with
  | [] => mret ([], used)
  | t :: rest =>
      if target_matches t key then
        let t' := assign key value t in
        (if 1 <? log_level then print Stderr [key; "->"; default "stderr" (t_target t')]
         else mret tt);;
        r ← route_key log_level key value rest true;
        mret (t' :: r.1, r.2)
      else
        r ← route_key log_level key value rest used;
        mret (t :: r.1, r.2)
  end.

(** The body of [for key, value in list(sources.get('source', {}).items())]. *)
Definition route_property (log_level : Z) (targets : list target) (kv : string * scalar)
    : M (list target) :=
  r ← route_key log_level kv.1 kv.2 targets false;
  (if negb r.2 && (0 <? log_level)
   then print Stderr ["Property"; kv.1; "was ignored because it did not match any target"]
   else mret tt);;
  mret r.1.

(** A loop whose body updates the rules. *)
Fixpoint fold_targets {A : Type} (body : list target -> A -> M (list target))
    (l : list A) (targets : list target) : M (list target) :=
  match l with
  | [] => mret targets
  | x :: l' => targets' ← body targets x; fold_targets body l' targets'
  end.

(** The items of one source, in the order of the source. *)
Definition route_source (log_level : Z) (targets : list target) (sources : property_source)
    : M (list target) :=
  fold_targets (route_property log_level) (default [] (source sources)) targets.

(** [for sources in reversed(config.get('propertySources', []))] *)
Definition route_all (log_level : Z) (cfg : config) (targets : list target) : M (list target) :=
  fold_targets (route_source log_level) (rev (default [] (propertySources cfg))) targets.

(** ** Writing: [add_environment_variable], [write_property_file] and the
    second loop of [save_config_properties] *)

(** The line is left on standard output for the caller to export. *)
Definition add_environment_variable (key : string) (value : scalar) : M unit :=
  print Stdout [key; str value].

(** [value.encode()]: only a [str] has the method. *)
Definition encode_value (value : scalar) : M string :=
  match value with
  | VStr s => mret (Py.encode s)
  | _ => raise AttributeError
  end.

(** The three renderers.  [print] writes [str] of its argument, and [str]
    of a bytes object is its [repr]. *)
Definition render_json (f : file) (properties : list (string * scalar)) : M unit :=
  write f (Json.dump_pairs properties).

Definition render_yml (f : file) (properties : list (string * scalar)) : M unit :=
  print f ["---"];;
  for_each (fun kv => print f [kv.1; str kv.2]) properties.

Definition render_properties (f : file) (properties : list (string * scalar)) : M unit :=
  for_each (fun kv =>
              v ← encode_value kv.2;
              print f [Py.repr_bytes (Py.encode kv.1 +:+ "=" +:+ v)])
           properties.

Definition write_property_file (f : file) (properties : list (string * scalar))
    (format : string) : M unit :=
  if String.eqb format "json" then render_json f properties
  else if String.eqb format "yml" then render_yml f properties
  else if String.eqb format "properties" || String.eqb format "text"
  then render_properties f properties
  else print Stderr ["Illegal format"; format; "in VCAPX_CONFIG"].

(** The format of a file destination, from the rule or from the text after
    the last dot of the file name. *)
Definition file_format (t : target) (filename : string) : string :=
  let parts := Py.rsplit1 "." filename in
  default (if (1 <? length parts)%nat then nth 1 parts "" else "properties") (t_format t).

(** The body of the loop [for target in targets] that writes the buckets. *)
Definition write_target (t : target) : M unit :=
  let properties := default [] (t_properties t) in
  if (length properties <? 1)%nat then mret tt
  else
    let destination := default "stderr" (t_target t) in
    if String.eqb destination "env" then
      for_each (fun kv => add_environment_variable kv.1 kv.2) properties
    else if String.eqb destination "stderr" then
      write_property_file Stderr properties (default "text" (t_format t))
    else if String.eqb destination "stdout" then
      write_property_file Stdout properties (default "text" (t_format t))
    else if Py.startswith destination "file:" then
      let filename := Py.slice_from 5 destination in
      with_open_wb filename
        (fun property_file => write_property_file property_file properties (file_format t filename))
    else print Stderr ["Illegal target type"; destination; "in VCAPX_CONFIG"].

Definition write_targets (targets : list target) : M unit := for_each write_target targets.

(** ** The services of the platform and the network *)

(** The credentials of a bound service. *)
Record credentials : Type := Credentials {
  cred_tags : option (list string);
  access_token_uri : option string;
  client_id : option string;
  client_secret : option string;
  uri : option string
}.

(** A bound service instance. *)
Record instance : Type := Instance {
  inst_tags : option (list string);
  inst_credentials : option credentials
}.

(** [VCAP_APPLICATION] *)
Record vcap_application : Type := VcapApplication {
  application_name : option string;
  space_name : option string
}.

(** The three variables of the environment the program reads, decoded. *)
Record environ : Type := Environ {
  VCAPX_CONFIG : vcap_config;
  VCAP_APPLICATION : vcap_application;
  VCAP_SERVICES : list (string * list instance)
}.

Record appinfo : Type := AppInfo {
  name : string;
  profile : string
}.

(** A request: its URL, its [Authorization] header, its body. *)
Record request : Type := Request {
  req_url : string;
  req_authorization : option string;
  req_data : option string
}.

(** The answer of the token endpoint, decoded. *)
Record token_response : Type := TokenResponse {
  access_token : option string;
  token_type : option string
}.

(** What [json.load(urllib.request.urlopen(req))] does: it returns the
    decoded answer, or [urlopen] raises [HTTPError] or another [URLError],
    or the answer is not JSON. *)
Inductive fetched (A : Type) : Type :=
| Answer (a : A)
| HttpFailure (code : Z) (msg : string) (body : string)
| UrlFailure (reason : string)
| NotJson.

Arguments Answer {A} a.
Arguments HttpFailure {A} code msg body.
Arguments UrlFailure {A} reason.
Arguments NotJson {A}.

Definition load {A : Type} (r : fetched A) : M A :=
  match r with
  | Answer a => mret a
  | HttpFailure code msg body => raise (HTTPError code msg body)
  | UrlFailure reason => raise (URLError reason)
  | NotJson => raise ValueError
  end.

(** The network: what each endpoint answers to a request. *)
Record network : Type := Network {
  token_endpoint : request -> fetched token_response;
  config_endpoint : request -> fetched config
}.

(** [base64.b64encode] *)
Module Base64.

Definition alphabet : string :=
  "ABCDEFGHIJKLMNOPQRSTUVWXYZabcdefghijklmnopqrstuvwxyz0123456789+/".

Definition digit (n : N) : ascii :=
  match String.get (N.to_nat n) alphabet with
  | Some c => c
  | None => "="%char
  end.

Definition quad (a b c d : ascii) (rest : string) : string :=
  String a (String b (String c (String d rest))).

Fixpoint b64encode (b : string) : string :=
  match b with
  | EmptyString => EmptyString
  | String x EmptyString =>
      quad (digit (Py.code x / 4)) (digit (Py.code x mod 4 * 16)) "=" "=" EmptyString
  | String x (String y EmptyString) =>
      quad (digit (Py.code x / 4)) (digit (Py.code x mod 4 * 16 + Py.code y / 16))
           (digit (Py.code y mod 16 * 4)) "=" EmptyString
  | String x (String y (String z rest)) =>
      quad (digit (Py.code x / 4)) (digit (Py.code x mod 4 * 16 + Py.code y / 16))
           (digit (Py.code y mod 16 * 4 + Py.code z / 64)) (digit (Py.code z mod 64))
           (b64encode rest)
  end%N.

End Base64.

(** ** The run: [main] and the functions it calls *)

(** [try: body / except urllib.error.URLError as err: handler(err)];
    [HTTPError] is a [URLError]. *)
Definition try_except_URLError {A : Type} (body : M A) (handler : exn -> M A) : M A := fun w =>
  match body w with
  | (Raised (URLError reason), w') => handler (URLError reason) w'
  | (Raised (HTTPError code msg text), w') => handler (HTTPError code msg text) w'
  | r => r
  end.

Definition get_application_info (env : environ) : M appinfo :=
  match application_name (VCAP_APPLICATION env) with
  | None =>
      print Stderr ["VCAP_APPLICATION must specify application_name"];;
      sys_exit 1
  | Some n => mret (AppInfo n (default "default" (space_name (VCAP_APPLICATION env))))
  end.

Definition has_tag (tag : string) (tags : list string) : bool :=
  existsb (String.eqb tag) tags.

(** The tags of an instance: its own and those of its credentials. *)
Definition instance_tags (i : instance) : list string :=
  default [] (inst_tags i) ++ default [] (inst_credentials i ≫= cred_tags).

Definition find_spring_config_service (env : environ) (info : appinfo) : option instance :=
  List.find (fun i => has_tag "spring-cloud" (instance_tags i)
                      && has_tag "configuration" (instance_tags i))
            (flat_map snd (VCAP_SERVICES env)).

Definition createAuthHeader (c : credentials) : string :=
  let client := default "" (client_id c) +:+ ":" +:+ default "" (client_secret c) in
  "Basic " +:+ Base64.b64encode (Py.encode client).

Definition get_access_token (net : network) (c : credentials) : M (option string) :=
  match access_token_uri c with
  | None => mret None
  | Some token_uri =>
      let req := Request token_uri (Some (createAuthHeader c))
                         (Some "grant_type=client_credentials") in
      response ← load (token_endpoint net req);
      match token_type response, access_token response with
      | Some type, Some token => mret (Some (type +:+ " " +:+ token))
      | _, _ => raise TypeError
      end
  end.

Section Run.

(** The text [json] writes for the data structures that are dumped whole:
    the service and the server's answer (with [indent=4], when the log level
    is above 1) and the configuration at the end of the run. *)
Variable json_dump_service : instance -> string.
Variable json_dump_config : config -> string.
Variable json_dumps : vcap_config -> string.

(** [save_config_properties]; the result is [vcap_config] as the run
    leaves it. *)
Definition save_config_properties (vc : vcap_config) (log_level : Z)
    (service : instance) (cfg : config) : M vcap_config :=
  let targets0 := default default_targets (targets vc) in
  targets1 ← route_all log_level cfg targets0;
  write_targets targets1;;
  let vc' := VcapConfig (loglevel vc) (skip_ssl_validation vc) (Some targets1) in
  add_environment_variable "VCAP_CONFIG" (VStr (json_dumps vc'));;
  mret vc'.

Definition no_credentials : credentials := Credentials None None None None None.

(** [str(err)] of an [HTTPError] *)
Definition str_HTTPError (code : Z) (msg : string) : string :=
  "HTTP Error " +:+ Py.str_int code +:+ ": " +:+ msg.

(** The handler of the fetch: [err.read()] exists for [HTTPError] only. *)
Definition report_fetch_error (vc : vcap_config) (err : exn) : M (vcap_config + config) :=
  match err with
  | HTTPError code msg text =>
      print Stderr [Py.repr_bytes text];;
      print Stderr [str_HTTPError code msg];;
      mret (inl vc)
  | _ => raise AttributeError
  end.

Definition get_spring_cloud_config (net : network) (vc : vcap_config) (log_level : Z)
    (service : instance) (info : appinfo) : M vcap_config :=
  (if 1 <? log_level
   then print Stderr ["spring-cloud-config:"];;
        write Stderr (json_dump_service service);;
        print Stderr []
   else mret tt);;
  let c := default no_credentials (inst_credentials service) in
  token ← get_access_token net c;
  match uri c with
  | None =>
      print Stderr ["services of type spring-config-server must specify a uri"];;
      mret vc
  | Some u =>
      let u := u +:+ "/" +:+ name info +:+ "/" +:+ profile info in
      r ← try_except_URLError
            ((if 1 <? log_level then print Stderr ["GET"; u] else mret tt);;
             cfg ← load (config_endpoint net (Request u token None));
             mret (inr cfg))
            (report_fetch_error vc);
      match r with
      | inl vc' => mret vc'
      | inr cfg =>
          (if 1 <? log_level
           then write Stderr (json_dump_config cfg);; print Stderr []
           else mret tt);;
          save_config_properties vc log_level service cfg
      end
  end.

(** [main]; [get_vcap_config] sets [vcap_config] and [log_level] from the
    environment, and [skip_ssl_validation] only changes how the network is
    reached. *)
Definition main (env : environ) (net : network) : M vcap_config :=
  let vc := VCAPX_CONFIG env in
  let log_level := default 1 (loglevel vc) in
  info ← get_application_info env;
  match find_spring_config_service env info with
  | Some service => get_spring_cloud_config net vc log_level service info
  | None => mret vc
  end.

End Run.

Definition empty_world : world := World "" "" ∅.

(** ** Views used by the statements *)

(** The bucket of a rule: [target.get('properties', {})]. *)
Definition bucket (t : target) : dict scalar := default [] (t_properties t).

(** What the first loop does to one rule for one property. *)
Definition route1 (key : string) (value : scalar) (t : target) : target :=
  if target_matches t key then assign key value t else t.

(** The properties in the order the first loop meets them: the sources from
    the last listed to the first, each in its own order. *)
Definition items_in_order (cfg : config) : list (string * scalar) :=
  flat_map (fun s => default [] (source s)) (rev (default [] (propertySources cfg))).

(** The rules after the properties [l] have been routed, without the log. *)
Definition routed (l : list (string * scalar)) (ts : list target) : list target :=
  fold_left (fun ts kv => map (route1 kv.1 kv.2) ts) l ts.

(** The value of the last pair of [l] whose key is [k]. *)
Fixpoint last_binding {V : Type} (k : string) (l : list (string * V)) : option V :=
  match l with
  | [] => None
  | (k', v) :: l' =>
      match last_binding k l' with
      | Some v' => Some v'
      | None => if String.eqb k' k then Some v else None
      end
  end.

(** The formats [write_property_file] knows. *)
Definition known_format (format : string) : bool :=
  String.eqb format "json" || String.eqb format "yml"
  || String.eqb format "properties" || String.eqb format "text".

(** The destinations the second loop knows. *)
Definition known_destination (destination : string) : bool :=
  String.eqb destination "env" || String.eqb destination "stderr"
  || String.eqb destination "stdout" || Py.startswith destination "file:".

(** The world after a line has been printed on standard error. *)
Definition reported (w : world) (args : list string) : world :=
  MkWorld (stdout w) (stderr w +:+ join_sp args +:+ nl) (files w) (unopenable w).

(** The world after [name] has been opened for writing. *)
Definition truncated (name : string) (w : world) : world :=
  MkWorld (stdout w) (stderr w) (<[name := ""]> (files w)) (unopenable w).

(** [needle in s] for strings. *)
Fixpoint occurs (needle s : string) : bool :=
  Py.startswith s needle
  || match s with
     | EmptyString => false
     | String _ s' => occurs needle s'
     end.

(** ** Inputs of the examples *)


(** Three sources, the most specific first; [a] is in the second and the
    third. *)
Definition three_sources : list property_source :=
  [PropertySource (Some [("b", VStr "1")]);
   PropertySource (Some [("a", VStr "x"); ("c", VInt 3)]);
   PropertySource (Some [("a", VStr "y")])].

(** Three sources that all hold [a]. *)
Definition repeated_key : list property_source :=
  [PropertySource (Some [("a", VStr "x")]);
   PropertySource (Some [("a", VStr "y")]);
   PropertySource (Some [("a", VStr "z")])].

(** A rule with a destination and a format that do not exist, and no
    property. *)
Definition idle_rule : target := Target None (Some "nowhere") (Some "ini") None.

(** A file rule without a format. *)
Definition out_yml_rule : target :=
  Target None (Some "file:out.yml") None (Some [("k", VStr "v")]).

(** A file rule with an unknown format, and a world where its file exists. *)
Definition ini_rule : target :=
  Target None (Some "file:out.dat") (Some "ini") (Some [("k", VStr "v")]).

Definition old_world : world := World "" "" {[ "out.dat" := "old contents" ]}.

(** Two rules with their buckets filled: a file rule holding an integer,
    which has no [encode], then an environment rule. *)
Definition port_rule : target :=
  Target None (Some "file:out.properties") None (Some [("port", VInt 8080)]).

Definition text_rule : target :=
  Target None (Some "file:out.properties") None (Some [("a", VStr "1")]).

Definition filled_env_rule : target :=
  Target None (Some "env") None (Some [("A", VStr "1")]).

(** A rule with an unknown destination and its bucket filled. *)
Definition nowhere_rule : target :=
  Target None (Some "nowhere") None (Some [("k", VStr "v")]).

(** The mapping [{a: "1", b: "2"}]. *)
Definition ab_mapping : list (string * scalar) := [("a", VStr "1"); ("b", VStr "2")].

(** The server's answer of the end-to-end scenario. *)
Definition two_sources : config :=
  Config (Some [PropertySource (Some [("a.b", VStr "x")]);
                PropertySource (Some [("a.b", VStr "y"); ("C", VStr "z")])]).

Definition no_vcap_config : vcap_config := VcapConfig None None None.

(** A bound configuration service that asks for a token, an application
    with a name and one without, and three networks: one whose token
    endpoint cannot be reached, one whose configuration server cannot be
    reached, one whose configuration server answers 404. *)
Definition bound_service : instance :=
  Instance (Some ["configuration"; "spring-cloud"])
           (Some (Credentials None (Some "https://uaa.example/oauth/token")
                              (Some "id") (Some "secret") (Some "https://config.example"))).

Definition named_environ : environ :=
  Environ no_vcap_config (VcapApplication (Some "app") None)
          [("p-config-server", [bound_service])].

Definition unnamed_environ : environ :=
  Environ no_vcap_config (VcapApplication None None) [("p-config-server", [bound_service])].

Definition token_down : network :=
  Network (fun _ => UrlFailure "connection refused") (fun _ => Answer two_sources).

Definition server_down : network :=
  Network (fun _ => Answer (TokenResponse (Some "tok") (Some "bearer")))
          (fun _ => UrlFailure "connection refused").

Definition server_404 : network :=
  Network (fun _ => Answer (TokenResponse (Some "tok") (Some "bearer")))
          (fun _ => HttpFailure 404 "Not Found" "missing").


(** ** Views of what the writers print *)

(** The lines [print(key, value)] writes for the pairs of a bucket. *)
Fixpoint pair_lines (properties : list (string * scalar)) : string :=
  match properties with
  | [] => EmptyString
  | kv :: rest => kv.1 +:+ " " +:+ str kv.2 +:+ nl +:+ pair_lines rest
  end.

(** The lines the properties renderer prints for pairs whose values are
    strings. *)
Fixpoint properties_lines (properties : list (string * string)) : string :=
  match properties with
  | [] => EmptyString
  | kv :: rest =>
      Py.repr_bytes (Py.encode kv.1 +:+ "=" +:+ Py.encode kv.2) +:+ nl +:+ properties_lines rest
  end.

(** A pair whose value is a string. *)
Definition str_pair (kv : string * string) : string * scalar := (kv.1, VStr kv.2).

Definition is_str (v : scalar) : bool :=
  match v with
  | VStr _ => true
  | _ => false
  end.

(** The world after [s] has been written on a standard stream. *)
Definition written (f : file) (s : string) (w : world) : world :=
  match f with
  | Stdout => MkWorld (stdout w +:+ s) (stderr w) (files w) (unopenable w)
  | Stderr => MkWorld (stdout w) (stderr w +:+ s) (files w) (unopenable w)
  | Binary _ => w
  end.

(** A standard stream. *)
Definition is_stream (f : file) : bool :=
  match f with
  | Binary _ => false
  | _ => true
  end.

(** Inputs of the examples. *)
Definition mixed_bucket : list (string * scalar) :=
  [("a", VStr "1"); ("port", VInt 8080); ("b", VStr "2")].

Definition stdout_rule : target :=
  Target None (Some "stdout") (Some "yml") (Some [("k", VStr "v"); ("n", VInt 3)]).

(** A computation that leaves a part [proj] of the world as it found it,
    however it ends. *)
Definition keeps {A X : Type} (proj : world -> X) (c : M A) : Prop :=
  forall w, proj (c w).2 = proj w.

(** A computation that never calls [sys.exit]. *)
Definition never_exits {A : Type} (c : M A) : Prop :=
  forall w n w', c w <> (Exited n, w').

(** ** [detect] *)

(** [detect]: the exit status tells whether a configuration service is
    bound; [spring-config] is printed when one is. *)
Definition detect (env : environ) : M unit :=
  info ← get_application_info env;
  match find_spring_config_service env info with
  | None => sys_exit 1
  | Some _ => print Stdout ["spring-config"]
  end.

(** An instance that carries both tags. *)
Definition tagged (i : instance) : bool :=
  has_tag "spring-cloud" (instance_tags i) && has_tag "configuration" (instance_tags i).

(** The instances of all services, in the order the loops meet them. *)
Definition all_instances (env : environ) : list instance := flat_map snd (VCAP_SERVICES env).

(** Inputs of the examples: an instance tagged in its credentials only, one
    with a single tag, and environments made of them. *)
Definition user_provided : instance :=
  Instance None (Some (Credentials (Some ["spring-cloud"; "configuration"]) None None None None)).

Definition half_tagged : instance := Instance (Some ["configuration"]) None.

Definition unbound_environ : environ :=
  Environ no_vcap_config (VcapApplication (Some "app") (Some "dev"))
          [("mysql", [half_tagged]); ("empty", [])].

Definition two_services_environ : environ :=
  Environ no_vcap_config (VcapApplication (Some "app") (Some "dev"))
          [("mysql", [half_tagged]); ("user-provided", [user_provided; bound_service])].

(** The lines the [env] rules of a list print, rule after rule. *)
Fixpoint env_output (ts : list target) : string :=
  match ts with
  | [] => EmptyString
  | t :: rest => pair_lines (bucket t) +:+ env_output rest
  end.



(** Inputs of the examples. *)
Definition env_only_config : config :=
  Config (Some [PropertySource (Some [("PORT", VInt 8080); ("lower", VStr "x")]);
                PropertySource (Some [("PORT", VInt 80); ("HOME", VStr "/app")])]).

Definition env_only_vcap_config : vcap_config :=
  VcapConfig (Some 0) None (Some [env_rule; Target None (Some "env") None None]).

Definition app_info : appinfo := AppInfo "app" "dev".



(** ** Views of the default filters *)

(** Every character of [s] is in one of the ranges. *)
Fixpoint all_in (ranges : list (ascii * ascii)) (s : string) : bool :=
  match s with
  | EmptyString => true
  | String a s' => Re.in_ranges ranges a && all_in ranges s'
  end.

(** A key made of one or more characters of the ranges, with or without one
    line feed after them. *)
Definition class_word (ranges : list (ascii * ascii)) (key : string) : Prop :=
  exists body, body <> "" /\ all_in ranges body = true /\ (key = body \/ key = body +:+ nl).

(** What can remain of [s] after characters of the ranges have been taken
    from its start. *)
Fixpoint class_suffixes (ranges : list (ascii * ascii)) (s : string) : list string :=
  s :: match s with
       | String a s' => if Re.in_ranges ranges a then class_suffixes ranges s' else []
       | EmptyString => []
       end.

(** The ranges of [[0-9A-Z_]], of [[a-z0-9]] and of [[0-9]]. *)
Definition upper_ranges : list (ascii * ascii) := [("0", "9"); ("A", "Z"); ("_", "_")]%char.
Definition lower_ranges : list (ascii * ascii) := [("a", "z"); ("0", "9")]%char.
Definition digit_ranges : list (ascii * ascii) := [("0", "9")]%char.

(** The same keys, decided: the characters after the first one are in the
    ranges, the last one may be a line feed instead. *)
Fixpoint word_rest (ranges : list (ascii * ascii)) (s : string) : bool :=
  match s with
  | EmptyString => true
  | String a s' =>
      match s' with
      | EmptyString => Re.in_ranges ranges a || Ascii.eqb a Re.newline
      | String _ _ => Re.in_ranges ranges a && word_rest ranges s'
      end
  end.

Definition is_word (ranges : list (ascii * ascii)) (key : string) : bool :=
  match key with
  | EmptyString => false
  | String a s' => Re.in_ranges ranges a && word_rest ranges s'
  end.

(** A run whose keys all go to [env]. *)
Definition env_keys_config : list property_source :=
  [PropertySource (Some [("PORT", VInt 8080)]);
   PropertySource (Some [("PORT", VInt 80); ("HOME", VStr "/app")])].

(** A world whose file system refuses the path [nodir/out.dat]. *)
Definition refusing_world : world :=
  MkWorld "" "" {[ "out.dat" := "old contents" ]} {[ "nodir/out.dat" ]}.

(** A file rule with an unknown format at that path, and one with a known
    format. *)
Definition refused_ini_rule : target :=
  Target None (Some "file:nodir/out.dat") (Some "ini") (Some [("k", VStr "v")]).

Definition refused_yml_rule : target :=
  Target None (Some "file:nodir/out.dat") (Some "yml") (Some [("k", VStr "v")]).

(** The world after the trace [get_spring_cloud_config] prints before it
    asks for the token, when the log level is above 1. *)
Definition service_traced (json_dump_service : instance -> string) (log_level : Z)
    (service : instance) (w : world) : world :=
  if 1 <? log_level
  then written Stderr ("spring-cloud-config:" +:+ nl +:+ json_dump_service service +:+ nl) w
  else w.

(** A tagged service with a token endpoint and no [uri]. *)
Definition token_service_without_uri : instance :=
  Instance (Some ["spring-cloud"; "configuration"])
           (Some (Credentials None (Some "https://uaa.example/oauth/token")
                              (Some "id") (Some "secret") None)).
(** * Properties *)

(** ** The monad and the dictionaries *)

Lemma bind_unfold {A B : Type} (c : M A) (f : A -> M B) (w : world) :
  (c ≫= f) w = match c w with
               | (Returned a, w') => f a w'
               | (Raised e, w') => (Raised e, w')
               | (Exited n, w') => (Exited n, w')
               end.
Proof. reflexivity. Qed.

Lemma print_stderr (args : list string) (w : world) :
  print Stderr args w = (Returned tt, reported w args).
Proof. reflexivity. Qed.

Lemma dict_get_set_eq {V : Type} (d : dict V) (k : string) (v : V) :
  dict_get (dict_set d k v) k = Some v.
Proof.
  induction d as [|[k' v'] d IH]; simpl.
  - now rewrite String.eqb_refl.
  - destruct (String.eqb k' k) eqn:E; simpl; rewrite E; auto.
Qed.

Lemma dict_get_set_ne {V : Type} (d : dict V) (k k' : string) (v : V) :
  k' <> k -> dict_get (dict_set d k' v) k = dict_get d k.
Proof.
  intros Hne. induction d as [|[k0 v0] d IH]; simpl.
  - apply String.eqb_neq in Hne. now rewrite Hne.
  - destruct (String.eqb k0 k') eqn:E; simpl.
    + apply String.eqb_eq in E. subst k0.
      apply String.eqb_neq in Hne. now rewrite Hne.
    + destruct (String.eqb k0 k); auto.
Qed.

Lemma last_binding_app {V : Type} (k : string) (l1 l2 : list (string * V)) :
  last_binding k (l1 ++ l2) =
  match last_binding k l2 with
  | Some v => Some v
  | None => last_binding k l1
  end.
Proof.
  induction l1 as [|[k' v'] l1 IH]; simpl.
  - destruct (last_binding k l2); reflexivity.
  - rewrite IH. destruct (last_binding k l2); reflexivity.
Qed.

Lemma last_binding_none {V : Type} (k : string) (l : list (string * V)) :
  dict_get l k = None -> last_binding k l = None.
Proof.
  induction l as [|[k' v'] l IH]; simpl; auto.
  destruct (String.eqb k' k); [discriminate|].
  intros H. now rewrite IH.
Qed.



(** ** Routing without its log *)

Lemma lookup_map {A B : Type} (f : A -> B) (l : list A) (i : nat) :
  map f l !! i = f <$> (l !! i).
Proof.
  revert i. induction l as [|x l IH]; intros [|i]; simpl; auto.
Qed.

Lemma route_key_spec (log_level : Z) (key : string) (value : scalar)
    (ts : list target) (used : bool) (w : world) :
  exists w', route_key log_level key value ts used w =
    (Returned (map (route1 key value) ts,
               used || existsb (fun t => target_matches t key) ts), w')
    /\ stdout w' = stdout w /\ files w' = files w.
Proof.
  revert used w. induction ts as [|t rest IH]; intros used w; simpl.
  - exists w. rewrite orb_false_r. auto.
  - unfold route1 at 1. destruct (target_matches t key) eqn:Hm.
    + rewrite bind_unfold. destruct (1 <? log_level).
      * rewrite print_stderr. cbv beta iota. rewrite bind_unfold.
        destruct (IH true (reported w [key; "->"; default "stderr" (t_target t)]))
          as (w' & E & H1 & H2).
        exists w'. rewrite E. cbn. rewrite orb_true_r. auto.
      * cbn [mret M_ret]. destruct (IH true w) as (w' & E & H1 & H2).
        exists w'. rewrite bind_unfold, E. cbn. rewrite orb_true_r. auto.
    + destruct (IH used w) as (w' & E & H1 & H2).
      exists w'. rewrite bind_unfold, E. cbn. auto.
Qed.

Lemma route_property_spec (log_level : Z) (ts : list target) (kv : string * scalar) (w : world) :
  exists w', route_property log_level ts kv w = (Returned (map (route1 kv.1 kv.2) ts), w')
    /\ stdout w' = stdout w /\ files w' = files w.
Proof.
  unfold route_property. rewrite bind_unfold.
  destruct (route_key_spec log_level kv.1 kv.2 ts false w) as (w1 & E & H1 & H2).
  rewrite E. cbn [fst snd]. rewrite bind_unfold.
  destruct (negb _ && _).
  - rewrite print_stderr. eexists. split; [reflexivity|]. simpl. auto.
  - exists w1. cbn. auto.
Qed.

(** A loop over the rules whose body always returns and leaves standard
    output and the files alone does the same. *)
Lemma fold_targets_spec {A : Type} (body : list target -> A -> M (list target))
    (g : list target -> A -> list target) :
  (forall ts x w, exists w', body ts x w = (Returned (g ts x), w')
                             /\ stdout w' = stdout w /\ files w' = files w) ->
  forall l ts w, exists w', fold_targets body l ts w = (Returned (fold_left g l ts), w')
                            /\ stdout w' = stdout w /\ files w' = files w.
Proof.
  intros Hbody. induction l as [|x l IH]; intros ts w; simpl.
  - exists w. auto.
  - rewrite bind_unfold. destruct (Hbody ts x w) as (w1 & E & H1 & H2). rewrite E.
    destruct (IH (g ts x) w1) as (w2 & E2 & H3 & H4).
    exists w2. rewrite E2. split; [reflexivity|]. split; congruence.
Qed.

Lemma fold_left_flat_map {A B C : Type} (g : C -> B -> C) (f : A -> list B) (l : list A) (c : C) :
  fold_left g (flat_map f l) c = fold_left (fun c x => fold_left g (f x) c) l c.
Proof.
  revert c. induction l as [|x l IH]; intros c; simpl; auto.
  now rewrite fold_left_app, IH.
Qed.

Lemma route_all_spec (log_level : Z) (cfg : config) (ts : list target) (w : world) :
  exists w', route_all log_level cfg ts w = (Returned (routed (items_in_order cfg) ts), w')
    /\ stdout w' = stdout w /\ files w' = files w.
Proof.
  unfold route_all, routed, items_in_order. rewrite fold_left_flat_map.
  apply fold_targets_spec. intros ts' s w'.
  unfold route_source. apply fold_targets_spec. apply route_property_spec.
Qed.

Lemma routed_lookup (l : list (string * scalar)) (ts : list target) (r : nat) :
  routed l ts !! r = fold_left (fun t kv => route1 kv.1 kv.2 t) l <$> (ts !! r).
Proof.
  unfold routed. revert ts. induction l as [|kv l IH]; intros ts; simpl.
  - now destruct (ts !! r).
  - rewrite IH, lookup_map. now destruct (ts !! r).
Qed.

Lemma bucket_assign (key : string) (value : scalar) (t : target) :
  bucket (assign key value t) = dict_set (bucket t) key value.
Proof. reflexivity. Qed.

Lemma target_matches_route1 (k' : string) (v' : scalar) (t : target) (k : string) :
  target_matches (route1 k' v' t) k = target_matches t k.
Proof. unfold route1. now destruct (target_matches t k'). Qed.

(** The bucket of a rule that matches [k] holds for [k] the last value
    routed for it. *)
Lemma bucket_fold (k : string) (l : list (string * scalar)) (t : target) :
  target_matches t k = true ->
  dict_get (bucket (fold_left (fun t kv => route1 kv.1 kv.2 t) l t)) k =
  match last_binding k l with
  | Some v => Some v
  | None => dict_get (bucket t) k
  end.
Proof.
  revert t. induction l as [|[k' v'] l IH]; intros t Hm; simpl; auto.
  rewrite IH by now rewrite target_matches_route1.
  destruct (last_binding k l); auto.
  unfold route1. destruct (String.eqb_spec k' k) as [->|Hne].
  - rewrite Hm, bucket_assign. apply dict_get_set_eq.
  - destruct (target_matches t k'); auto.
    rewrite bucket_assign. now apply dict_get_set_ne.
Qed.

(** ** First-match routing (C1) *)

(** C1, as stated, fails: with the default rules the key [123] matches the
    first rule and the third one, and routing it fills the bucket of the
    third rule as well as that of the first. *)
Lemma route_key_fills_later_rule :
  map (fun t => target_matches t "123") default_targets = [true; false; true]
  /\ route_key 1 "123" (VStr "x") default_targets false empty_world =
     (Returned ([assign "123" (VStr "x") env_rule; properties_rule;
                 assign "123" (VStr "x") yml_rule], true), empty_world)
  /\ dict_get (bucket (assign "123" (VStr "x") yml_rule)) "123" = Some (VStr "x").
Proof. repeat split. Qed.

(** C1, amended: routing a key tests every rule of the list, in order; the
    key's value is put in the bucket of each rule whose pattern matches a
    prefix of the key, and a rule whose pattern does not match is left as it
    was. *)
Theorem route_key_fills_every_matching_rule (log_level : Z) (key : string) (value : scalar)
    (ts : list target) (used : bool) (w : world) :
  exists ts' u w',
    route_key log_level key value ts used w = (Returned (ts', u), w')
    /\ length ts' = length ts
    /\ forall (i : nat) (t : target), ts !! i = Some t ->
         exists t', ts' !! i = Some t'
           /\ if target_matches t key
              then t' = assign key value t /\ dict_get (bucket t') key = Some value
              else t' = t.
Proof.
  destruct (route_key_spec log_level key value ts used w) as (w' & E & _).
  eexists _, _, w'. split; [exact E|]. split; [apply length_map|].
  intros i t Hi. exists (route1 key value t). split.
  - now rewrite lookup_map, Hi.
  - unfold route1. destruct (target_matches t key); auto.
    split; auto. rewrite bucket_assign. apply dict_get_set_eq.
Qed.

(** ** Merge precedence (C2) *)

Lemma last_binding_flat_none (k : string) (l : list property_source) :
  (forall s, In s l -> dict_get (default [] (source s)) k = None) ->
  last_binding k (flat_map (fun s => default [] (source s)) l) = None.
Proof.
  induction l as [|s l IH]; intros H; simpl; auto.
  rewrite last_binding_app, IH by (intros; apply H; now right).
  apply last_binding_none, H. now left.
Qed.




(** ** Writing the buckets *)

Lemma bucket_nonempty (t : target) :
  bucket t <> [] -> (length (default [] (t_properties t)) <? 1)%nat = false.
Proof.
  unfold bucket. destruct (default [] (t_properties t)); [congruence|reflexivity].
Qed.


Lemma rpartition_none (sep : ascii) (s : string) :
  Py.contains sep s = false -> Py.rpartition sep s = None.
Proof.
  induction s as [|c s IH]; simpl; auto.
  intros H. apply orb_false_iff in H as [Hc Hs]. now rewrite (IH Hs), Hc.
Qed.

Lemma rpartition_last (sep : ascii) (stem ext : string) :
  Py.contains sep ext = false ->
  Py.rpartition sep (stem +:+ String sep ext) = Some (stem, ext).
Proof.
  intros H. induction stem as [|c stem IH]; simpl.
  - now rewrite (rpartition_none _ _ H), Ascii.eqb_refl.
  - now rewrite IH.
Qed.

Lemma write_property_file_unknown (f : file) (properties : list (string * scalar))
    (format : string) (w : world) :
  known_format format = false ->
  write_property_file f properties format w =
  (Returned tt, reported w ["Illegal format"; format; "in VCAPX_CONFIG"]).
Proof.
  unfold known_format, write_property_file. intros H.
  apply orb_false_iff in H as [H Ht]. apply orb_false_iff in H as [H Hp].
  apply orb_false_iff in H as [Hj Hy]. now rewrite Hj, Hy, Hp, Ht.
Qed.

Lemma file_destination (path : string) :
  String.eqb ("file:" +:+ path) "env" = false
  /\ String.eqb ("file:" +:+ path) "stderr" = false
  /\ String.eqb ("file:" +:+ path) "stdout" = false
  /\ Py.startswith ("file:" +:+ path) "file:" = true
  /\ Py.slice_from 5 ("file:" +:+ path) = path.
Proof. repeat apply conj; reflexivity. Qed.

Lemma write_target_file (t : target) (path : string) (w : world) :
  default "stderr" (t_target t) = "file:" +:+ path ->
  bucket t <> [] ->
  write_target t w =
  with_open_wb path (fun f => write_property_file f (bucket t) (file_format t path)) w.
Proof.
  intros Hd Hb. unfold write_target. rewrite (bucket_nonempty _ Hb), Hd.
  destruct (file_destination path) as (-> & -> & -> & -> & ->). reflexivity.
Qed.

(** ** Empty buckets (C10) *)

(** C10: a rule whose bucket is empty changes nothing when the buckets are
    written, whatever its destination and its format are: the world after it
    is the world before it, and the loop goes on with the next rule. *)
Theorem empty_bucket_writes_nothing (t : target) (rest : list target) (w : world) :
  bucket t = [] ->
  write_target t w = (Returned tt, w)
  /\ write_targets (t :: rest) w = write_targets rest w.
Proof.
  intros Hb. assert (E : write_target t w = (Returned tt, w)).
  { unfold write_target. unfold bucket in Hb. now rewrite Hb. }
  split; [exact E|]. unfold write_targets. simpl. now rewrite bind_unfold, E.
Qed.

Lemma empty_bucket_writes_nothing_witness :
  write_target idle_rule old_world = (Returned tt, old_world)
  /\ write_targets [idle_rule; filled_env_rule] old_world = write_targets [filled_env_rule] old_world.
Proof. exact (empty_bucket_writes_nothing idle_rule [filled_env_rule] old_world eq_refl). Defined.

(** ** Format inference (C8) *)

(** C8: a file rule without a format is written with the format named by
    the text after the last dot of its path, and with [properties] when the
    path has no dot; [file:out.yml] goes to the yml renderer and [file:out]
    to the properties renderer. *)
Theorem file_format_inferred (t : target) (path : string) (w : world) :
  t_target t = Some ("file:" +:+ path) ->
  t_format t = None ->
  bucket t <> [] ->
  write_target t w =
    with_open_wb path (fun f => write_property_file f (bucket t) (file_format t path)) w
  /\ (forall stem ext, path = stem +:+ "." +:+ ext -> Py.contains "." ext = false ->
        file_format t path = ext)
  /\ (Py.contains "." path = false -> file_format t path = "properties")
  /\ (path = "out.yml" ->
        write_target t w = with_open_wb "out.yml" (fun f => render_yml f (bucket t)) w)
  /\ (path = "out" ->
        write_target t w = with_open_wb "out" (fun f => render_properties f (bucket t)) w).
Proof.
  intros Hd Hf Hb.
  assert (E : write_target t w =
              with_open_wb path (fun f => write_property_file f (bucket t) (file_format t path)) w).
  { apply write_target_file; [now rewrite Hd | exact Hb]. }
  split; [exact E|]. split; [|split; [|split]].
  - intros stem ext -> Hext. unfold file_format, Py.rsplit1. rewrite Hf.
    change ("." +:+ ext) with (String "." ext). now rewrite rpartition_last.
  - intros Hp. unfold file_format, Py.rsplit1. now rewrite Hf, rpartition_none.
  - intros ->. rewrite E. unfold file_format. now rewrite Hf.
  - intros ->. rewrite E. unfold file_format. now rewrite Hf.
Qed.

Lemma file_format_inferred_witness :
  write_target out_yml_rule empty_world =
    with_open_wb "out.yml"
      (fun f => write_property_file f (bucket out_yml_rule) (file_format out_yml_rule "out.yml"))
      empty_world
  /\ file_format out_yml_rule "out.yml" = "yml".
Proof.
  destruct (file_format_inferred out_yml_rule "out.yml" empty_world eq_refl eq_refl)
    as (E & Hext & _).
  - discriminate.
  - split; [exact E|]. exact (Hext "out" "yml" eq_refl eq_refl).
Defined.

(** ** Unknown formats (C7) *)

(** C7, as stated, fails: the diagnostic of an unknown format names the
    format and not the destination, and the file of a file destination,
    opened before the format is looked at, has lost its content. *)
Lemma unknown_format_empties_the_file :
  write_target ini_rule old_world =
    (Returned tt,
     World "" ("Illegal format ini in VCAPX_CONFIG" +:+ nl) {[ "out.dat" := "" ]})
  /\ occurs "out.dat" ("Illegal format ini in VCAPX_CONFIG" +:+ nl) = false
  /\ files old_world !! "out.dat" = Some "old contents".
Proof. repeat apply conj; vm_compute; reflexivity. Qed.

(** C7, amended: for a format that is not [json], [yml], [properties] or
    [text], the serializer prints [Illegal format <format> in VCAPX_CONFIG]
    on standard error, which names the format only, and writes nothing else.
    For a file destination the file is opened for writing before the format
    is looked at: when it can be opened it is created or emptied, and it is
    left empty; when it cannot, [open] raises, no diagnostic is printed and
    nothing is written. *)
Theorem unknown_format_reported (f : file) (properties : list (string * scalar))
    (format : string) (w : world) :
  known_format format = false ->
  write_property_file f properties format w =
    (Returned tt, reported w ["Illegal format"; format; "in VCAPX_CONFIG"])
  /\ forall (t : target) (path : string),
       t_target t = Some ("file:" +:+ path) -> bucket t <> [] ->
       file_format t path = format ->
       write_target t w =
         match open_failure w path with
         | None =>
             (Returned tt,
              reported (truncated path w) ["Illegal format"; format; "in VCAPX_CONFIG"])
         | Some e => (Raised e, w)
         end.
Proof.
  intros Hk. split; [now apply write_property_file_unknown|].
  intros t path Hd Hb Hf.
  rewrite (write_target_file t path w) by (try rewrite Hd; auto).
  unfold with_open_wb. destruct (open_failure w path); [reflexivity|].
  rewrite Hf. now rewrite write_property_file_unknown.
Qed.

Lemma unknown_format_reported_witness :
  write_property_file Stdout [("k", VStr "v")] "ini" empty_world =
    (Returned tt, reported empty_world ["Illegal format"; "ini"; "in VCAPX_CONFIG"])
  /\ write_target ini_rule old_world =
       (Returned tt, reported (truncated "out.dat" old_world)
                              ["Illegal format"; "ini"; "in VCAPX_CONFIG"])
  /\ write_target refused_ini_rule refusing_world = (Raised OSError, refusing_world).
Proof.
  split; [|split].
  - exact (proj1 (unknown_format_reported Stdout [("k", VStr "v")] "ini" empty_world eq_refl)).
  - apply (proj2 (unknown_format_reported Stdout [] "ini" old_world eq_refl) ini_rule "out.dat");
      [reflexivity | discriminate | reflexivity].
  - apply (proj2 (unknown_format_reported Stdout [] "ini" refusing_world eq_refl)
             refused_ini_rule "nodir/out.dat");
      [reflexivity | discriminate | reflexivity].
Defined.

(** ** What is written on a standard stream *)

Lemma append_assoc (a b c : string) : (a +:+ b) +:+ c = a +:+ (b +:+ c).
Proof.
  induction a as [|x a IH]; [reflexivity|].
  change (String x ((a +:+ b) +:+ c) = String x (a +:+ (b +:+ c))). now rewrite IH.
Qed.

Lemma append_nil_r (a : string) : a +:+ "" = a.
Proof.
  induction a as [|x a IH]; [reflexivity|].
  change (String x (a +:+ "") = String x a). now rewrite IH.
Qed.

Lemma written_nil (f : file) (w : world) : written f "" w = w.
Proof. destruct w, f; unfold written; cbn; now rewrite ?append_nil_r. Qed.

Lemma written_app (f : file) (a b : string) (w : world) :
  written f b (written f a w) = written f (a +:+ b) w.
Proof. destruct f; unfold written; cbn; now rewrite ?append_assoc. Qed.

Lemma print_stream (f : file) (args : list string) (w : world) :
  is_stream f = true ->
  print f args w = (Returned tt, written f (join_sp args +:+ nl) w).
Proof. now destruct f. Qed.

Lemma for_each_pair_lines (f : file) (properties : list (string * scalar)) (w : world) :
  is_stream f = true ->
  for_each (fun kv => print f [kv.1; str kv.2]) properties w =
    (Returned tt, written f (pair_lines properties) w).
Proof.
  intros Hf. revert w. induction properties as [|kv rest IH]; intros w; simpl.
  - now rewrite written_nil.
  - rewrite bind_unfold, print_stream by assumption. rewrite IH, written_app.
    cbn [join_sp]. now rewrite ?append_assoc.
Qed.

(** ** Destination isolation (C5) *)

(** C5, as stated, fails: an exception raised while a bucket is written to
    its file is neither reported nor caught; it ends the run, and the rule
    after it, whose line would have gone to standard output, is not
    written. *)
Lemma serialization_failure_ends_the_loop :
  write_targets [port_rule; filled_env_rule] empty_world =
    (Raised AttributeError, World "" "" {[ "out.properties" := "" ]})
  /\ write_targets [text_rule; filled_env_rule] empty_world =
    (Raised TypeError, World "" "" {[ "out.properties" := "" ]})
  /\ write_targets [filled_env_rule] empty_world =
    (Returned tt, World ("A 1" +:+ nl) "" ∅).
Proof. repeat apply conj; vm_compute; reflexivity. Qed.

(** C5, amended: a rule with a bucket whose destination is not a known one,
    or whose destination is [stderr], [stdout] or a file that can be opened
    and whose format is not a known one, is reported on standard error, and
    the rules after it are written as if it had not been there; an [env]
    rule is written whatever its format is, which is not looked at.  An
    exception raised while a rule is written, by [open] when the file cannot
    be opened or by the serializer, is not caught: it ends the loop, and the
    rules after it are not written. *)
Theorem illegal_rule_is_skipped (t : target) (rest : list target) (w : world) :
  bucket t <> [] ->
  (known_destination (default "stderr" (t_target t)) = false ->
     write_targets (t :: rest) w =
     write_targets rest
       (reported w ["Illegal target type"; default "stderr" (t_target t); "in VCAPX_CONFIG"]))
  /\ (default "stderr" (t_target t) = "stderr" \/ default "stderr" (t_target t) = "stdout" ->
      known_format (default "text" (t_format t)) = false ->
      write_targets (t :: rest) w =
      write_targets rest
        (reported w ["Illegal format"; default "text" (t_format t); "in VCAPX_CONFIG"]))
  /\ (forall path, default "stderr" (t_target t) = "file:" +:+ path ->
      open_failure w path = None ->
      known_format (file_format t path) = false ->
      write_targets (t :: rest) w =
      write_targets rest
        (reported (truncated path w) ["Illegal format"; file_format t path; "in VCAPX_CONFIG"]))
  /\ (default "stderr" (t_target t) = "env" ->
      write_targets (t :: rest) w =
      write_targets rest (written Stdout (pair_lines (bucket t)) w))
  /\ (forall path e, default "stderr" (t_target t) = "file:" +:+ path ->
      open_failure w path = Some e ->
      write_targets (t :: rest) w = (Raised e, w))
  /\ (forall e w', write_target t w = (Raised e, w') ->
      write_targets (t :: rest) w = (Raised e, w')).
Proof.
  intros Hb. unfold write_targets. simpl for_each. rewrite bind_unfold.
  repeat apply conj.
  - intros Hk. unfold known_destination in Hk.
    apply orb_false_iff in Hk as [Hk Hf]. apply orb_false_iff in Hk as [Hk Ho].
    apply orb_false_iff in Hk as [He Hr].
    unfold write_target. now rewrite (bucket_nonempty _ Hb), He, Hr, Ho, Hf.
  - intros Hd Hk. unfold write_target. rewrite (bucket_nonempty _ Hb).
    destruct Hd as [-> | ->]; simpl; now rewrite write_property_file_unknown.
  - intros path Hd Hp Hk. rewrite (write_target_file t path w Hd Hb).
    unfold with_open_wb. rewrite Hp.
    now rewrite write_property_file_unknown.
  - intros Hd. unfold write_target. rewrite (bucket_nonempty _ Hb), Hd.
    cbn [String.eqb Ascii.eqb Bool.eqb].
    change (fun kv : string * scalar => add_environment_variable kv.1 kv.2)
      with (fun kv : string * scalar => print Stdout [kv.1; str kv.2]).
    now rewrite (for_each_pair_lines Stdout).
  - intros path e Hd Hp. rewrite (write_target_file t path w Hd Hb).
    unfold with_open_wb. now rewrite Hp.
  - intros e w' E. now rewrite E.
Qed.

Lemma illegal_rule_is_skipped_witness :
  write_targets [nowhere_rule; filled_env_rule] empty_world =
  write_targets [filled_env_rule]
    (reported empty_world ["Illegal target type"; "nowhere"; "in VCAPX_CONFIG"]).
Proof.
  refine (proj1 (illegal_rule_is_skipped nowhere_rule [filled_env_rule] empty_world _) eq_refl).
  discriminate.
Defined.

(** ** Rules without a filter or a destination (C9) *)




(** ** The properties format (C4) *)

(** C4 at the mapping [{a: "1", b: "2"}]: [print] is given a bytes object
    and writes its [repr], so the lines on a standard stream are [b'a=1']
    and [b'b=2'], splitting them at [=] gives the keys [b'a], [b'b] and the
    values [1'], [2'], and on a file opened with ['wb'] the first [print]
    raises [TypeError].  The claim's lines [a=1] and [b=2] are not
    produced. *)
Theorem properties_lines_are_bytes_reprs :
  write_property_file Stdout ab_mapping "properties" empty_world =
    (Returned tt, World ("b'a=1'" +:+ nl +:+ "b'b=2'" +:+ nl) "" ∅)
  /\ map (Py.split1 "=") (Py.splitlines ("b'a=1'" +:+ nl +:+ "b'b=2'" +:+ nl)) =
     [["b'a"; "1'"]; ["b'b"; "2'"]]
  /\ write_property_file (Binary "out.properties") ab_mapping "properties" empty_world =
     (Raised TypeError, empty_world).
Proof. repeat apply conj; vm_compute; reflexivity. Qed.

(** ** The end-to-end scenario (C3) *)

(** C3 at its own input: the merge and the routing are as the claim says,
    [a.b] with [x] in the bucket of [file:config-server.properties] and [C]
    with [z] in the bucket of [env], and [C z] is printed on standard output;
    but writing the second bucket raises [TypeError] at its first [print],
    which leaves [config-server.properties] empty and ends the run. *)
Theorem end_to_end_run (json_dumps : vcap_config -> string) (service : instance) :
  route_all 1 two_sources default_targets empty_world =
    (Returned [Target (t_filter env_rule) (Some "env") None (Some [("C", VStr "z")]);
               Target (t_filter properties_rule) (Some "file:config-server.properties")
                      (Some "properties") (Some [("a.b", VStr "x")]);
               yml_rule],
     empty_world)
  /\ save_config_properties json_dumps no_vcap_config 1 service two_sources empty_world =
    (Raised TypeError, World ("C z" +:+ nl) "" {[ "config-server.properties" := "" ]}).
Proof. repeat apply conj; vm_compute; reflexivity. Qed.

(** ** What ends the run (C6) *)

(** C6 at an application that has a name: when the token endpoint cannot be
    reached, [URLError] leaves [get_access_token] and [main], nothing is
    reported and nothing is routed; when the configuration server cannot be
    reached, the handler calls [err.read()], which a plain [URLError] does
    not have, and [AttributeError] leaves [main].  An exception that leaves
    [main] ends the process with a status that is not zero.  An HTTP error
    of the server is reported and the run completes, and a missing name
    exits with status 1. *)
Theorem token_failure_ends_the_run (json_dump_service : instance -> string)
    (json_dump_config : config -> string) (json_dumps : vcap_config -> string) :
  application_name (VCAP_APPLICATION named_environ) = Some "app"
  /\ main json_dump_service json_dump_config json_dumps named_environ token_down empty_world =
     (Raised (URLError "connection refused"), empty_world)
  /\ main json_dump_service json_dump_config json_dumps named_environ server_down empty_world =
     (Raised AttributeError, empty_world)
  /\ main json_dump_service json_dump_config json_dumps named_environ server_404 empty_world =
     (Returned no_vcap_config,
      World "" ("b'missing'" +:+ nl +:+ "HTTP Error 404: Not Found" +:+ nl) ∅)
  /\ main json_dump_service json_dump_config json_dumps unnamed_environ server_404 empty_world =
     (Exited 1, World "" ("VCAP_APPLICATION must specify application_name" +:+ nl) ∅).
Proof. repeat apply conj; vm_compute; reflexivity. Qed.

(** * More properties of the routing loop *)

(** ** Keys that match no rule *)

Lemma route_key_no_match (log_level : Z) (key : string) (value : scalar)
    (ts : list target) (used : bool) (w : world) :
  (forall t, In t ts -> target_matches t key = false) ->
  route_key log_level key value ts used w = (Returned (ts, used), w).
Proof.
  revert used. induction ts as [|t rest IH]; intros used H; simpl; auto.
  rewrite (H t) by now left.
  rewrite bind_unfold, IH by (intros; apply H; now right). reflexivity.
Qed.

(** X1: a property whose key matches no rule changes no rule; when the log
    level is above 0 one line on standard error says that it was ignored,
    and otherwise nothing is printed. *)
Theorem unmatched_key_is_ignored (log_level : Z) (ts : list target)
    (kv : string * scalar) (w : world) :
  (forall t, In t ts -> target_matches t kv.1 = false) ->
  route_property log_level ts kv w =
    (Returned ts,
     if 0 <? log_level
     then reported w ["Property"; kv.1; "was ignored because it did not match any target"]
     else w).
Proof.
  intros H. unfold route_property.
  rewrite bind_unfold, (route_key_no_match _ _ _ _ _ _ H). cbn [fst snd negb andb].
  rewrite bind_unfold. destruct (0 <? log_level); reflexivity.
Qed.

Lemma unmatched_key_is_ignored_witness :
  route_property 1 default_targets ("a-b", VStr "v") empty_world =
    (Returned default_targets,
     reported empty_world
       ["Property"; "a-b"; "was ignored because it did not match any target"]).
Proof.
  apply (unmatched_key_is_ignored 1 default_targets ("a-b", VStr "v") empty_world).
  intros t [<- | [<- | [<- | []]]]; reflexivity.
Defined.

(** ** What the log level changes *)

Lemma route_key_quiet (log_level : Z) (key : string) (value : scalar)
    (ts : list target) (used : bool) (w : world) :
  log_level <= 1 ->
  route_key log_level key value ts used w =
    (Returned (map (route1 key value) ts,
               used || existsb (fun t => target_matches t key) ts), w).
Proof.
  intros Hl. assert (E : (1 <? log_level) = false) by now apply Z.ltb_ge.
  revert used. induction ts as [|t rest IH]; intros used; simpl.
  - now rewrite orb_false_r.
  - unfold route1 at 1. destruct (target_matches t key) eqn:Hm.
    + rewrite E, bind_unfold. cbn [mret M_ret]. rewrite bind_unfold, IH.
      cbn. now rewrite orb_true_r.
    + now rewrite bind_unfold, IH.
Qed.

Lemma fold_targets_silent {A : Type} (body : list target -> A -> M (list target))
    (g : list target -> A -> list target) :
  (forall ts x w, body ts x w = (Returned (g ts x), w)) ->
  forall l ts w, fold_targets body l ts w = (Returned (fold_left g l ts), w).
Proof.
  intros Hbody. induction l as [|x l IH]; intros ts w; simpl; auto.
  now rewrite bind_unfold, Hbody, IH.
Qed.

Lemma route_property_silent (log_level : Z) (ts : list target) (kv : string * scalar) (w : world) :
  log_level <= 0 ->
  route_property log_level ts kv w = (Returned (map (route1 kv.1 kv.2) ts), w).
Proof.
  intros Hl. unfold route_property.
  rewrite bind_unfold, route_key_quiet by lia. cbn [fst snd].
  assert (E : (0 <? log_level) = false) by now apply Z.ltb_ge.
  now rewrite E, andb_false_r.
Qed.

(** X2: with a log level of 0 or less the whole routing prints nothing: it
    returns the routed rules and leaves the world as it was, whatever the
    sources hold. *)
Theorem routing_is_silent_at_level_0 (log_level : Z) (cfg : config)
    (ts : list target) (w : world) :
  log_level <= 0 ->
  route_all log_level cfg ts w = (Returned (routed (items_in_order cfg) ts), w).
Proof.
  intros Hl. unfold route_all, routed, items_in_order. rewrite fold_left_flat_map.
  apply fold_targets_silent. intros ts' s w'.
  unfold route_source. apply fold_targets_silent. intros. now apply route_property_silent.
Qed.

Lemma routing_is_silent_at_level_0_witness :
  route_all 0 (Config (Some three_sources)) default_targets empty_world =
    (Returned (routed (items_in_order (Config (Some three_sources))) default_targets),
     empty_world).
Proof.
  apply (routing_is_silent_at_level_0 0 (Config (Some three_sources)) default_targets empty_world).
  lia.
Defined.

(** ** What routing keeps *)

Lemma route1_keeps (k : string) (v : scalar) (t : target) :
  t_filter (route1 k v t) = t_filter t
  /\ t_format (route1 k v t) = t_format t
  /\ (t_target (route1 k v t) = t_target t
      \/ (t_target t = None /\ t_target (route1 k v t) = Some "stderr")).
Proof.
  unfold route1. destruct (target_matches t k); [|auto].
  unfold assign. cbn. repeat split. destruct (t_target t); auto.
Qed.

Lemma fold_route1_keeps (l : list (string * scalar)) (t : target) :
  let t' := fold_left (fun t kv => route1 kv.1 kv.2 t) l t in
  t_filter t' = t_filter t
  /\ t_format t' = t_format t
  /\ (t_target t' = t_target t \/ (t_target t = None /\ t_target t' = Some "stderr")).
Proof.
  revert t. induction l as [|[k v] l IH]; intros t; simpl; [auto|].
  destruct (IH (route1 k v t)) as (Hf & Hm & Ht).
  destruct (route1_keeps k v t) as (Hf1 & Hm1 & Ht1).
  rewrite Hf, Hm, Hf1, Hm1. repeat split.
  destruct Ht as [Ht | [Hn Ht]]; destruct Ht1 as [Ht1 | [Hn1 Ht1]];
    [left; congruence | right; split; congruence | right; split; congruence | congruence].
Qed.

Lemma routed_length (l : list (string * scalar)) (ts : list target) :
  length (routed l ts) = length ts.
Proof.
  unfold routed. revert ts. induction l as [|kv l IH]; intros ts; simpl; auto.
  now rewrite IH, length_map.
Qed.

(** X3: routing always returns; it writes nothing on standard output and
    touches no file; it keeps the number and the order of the rules, and the
    filter and the format of each; and the destination of a rule changes
    only from absent to [stderr]. *)
Theorem routing_keeps_the_rules (log_level : Z) (cfg : config) (ts : list target) (w : world) :
  exists ts' w',
    route_all log_level cfg ts w = (Returned ts', w')
    /\ stdout w' = stdout w /\ files w' = files w
    /\ length ts' = length ts
    /\ forall (i : nat) (t : target), ts !! i = Some t ->
         exists t', ts' !! i = Some t'
           /\ t_filter t' = t_filter t
           /\ t_format t' = t_format t
           /\ (t_target t' = t_target t
               \/ (t_target t = None /\ t_target t' = Some "stderr")).
Proof.
  destruct (route_all_spec log_level cfg ts w) as (w' & E & Ho & Hf).
  eexists _, w'. split; [exact E|]. repeat split; auto using routed_length.
  intros i t Hi. rewrite routed_lookup, Hi. eexists. split; [reflexivity|].
  apply fold_route1_keeps.
Qed.

(** ** Which keys a bucket can hold *)

(** The value a bucket holds for [k] after the properties [l]: the last one
    routed for [k] when the rule matches [k] and [l] has one, and the value
    it held before otherwise. *)
Lemma bucket_fold_any (k : string) (l : list (string * scalar)) (t : target) :
  dict_get (bucket (fold_left (fun t kv => route1 kv.1 kv.2 t) l t)) k =
  if target_matches t k
  then match last_binding k l with
       | Some v => Some v
       | None => dict_get (bucket t) k
       end
  else dict_get (bucket t) k.
Proof.
  destruct (target_matches t k) eqn:Hm; [now apply bucket_fold|].
  revert t Hm. induction l as [|[k' v'] l IH]; intros t Hm; simpl; auto.
  rewrite IH by now rewrite target_matches_route1.
  unfold route1. destruct (target_matches t k') eqn:Hm'; auto.
  rewrite bucket_assign. apply dict_get_set_ne. intros ->. congruence.
Qed.

(** X4: a rule whose filter does not match a key never receives it: what
    its bucket holds for that key is the same before and after routing,
    whatever the sources are. *)
Theorem unmatched_rule_never_gets_key (log_level : Z) (cfg : config) (ts : list target)
    (w : world) (i : nat) (t : target) (k : string) :
  ts !! i = Some t ->
  target_matches t k = false ->
  exists ts' w' t',
    route_all log_level cfg ts w = (Returned ts', w')
    /\ ts' !! i = Some t'
    /\ dict_get (bucket t') k = dict_get (bucket t) k.
Proof.
  intros Hi Hm.
  destruct (route_all_spec log_level cfg ts w) as (w' & E & _).
  eexists _, w', _. split; [exact E|]. rewrite routed_lookup, Hi.
  split; [reflexivity|]. now rewrite bucket_fold_any, Hm.
Qed.

Lemma unmatched_rule_never_gets_key_witness :
  exists ts' w' t',
    route_all 1 two_sources default_targets empty_world = (Returned ts', w')
    /\ ts' !! 0%nat = Some t'
    /\ dict_get (bucket t') "a.b" = dict_get (bucket env_rule) "a.b".
Proof.
  exact (unmatched_rule_never_gets_key 1 two_sources default_targets empty_world
           0 env_rule "a.b" eq_refl eq_refl).
Defined.

Lemma last_binding_some_in {V : Type} (k : string) (v : V) (l : list (string * V)) :
  last_binding k l = Some v -> In (k, v) l.
Proof.
  induction l as [|[k' v'] l IH]; simpl; [discriminate|].
  destruct (last_binding k l) eqn:E.
  - intros [= ->]. right. now apply IH.
  - destruct (String.eqb_spec k' k) as [->|]; [|discriminate].
    intros [= ->]. now left.
Qed.

Lemma last_binding_is_some {V : Type} (k : string) (v : V) (l : list (string * V)) :
  In (k, v) l -> exists v', last_binding k l = Some v'.
Proof.
  induction l as [|[k' v'] l IH]; simpl; [tauto|].
  intros [[= -> ->] | Hin].
  - destruct (last_binding k l); eauto. rewrite String.eqb_refl. eauto.
  - destruct (IH Hin) as [v0 ->]. eauto.
Qed.

Lemma dict_get_some_in {V : Type} (k : string) (v : V) (l : list (string * V)) :
  dict_get l k = Some v -> In (k, v) l.
Proof.
  induction l as [|[k' v'] l IH]; simpl; [discriminate|].
  destruct (String.eqb_spec k' k) as [->|].
  - intros [= ->]. now left.
  - intros H. right. now apply IH.
Qed.

Lemma in_items_in_order (srcs : list property_source) (kv : string * scalar) :
  In kv (items_in_order (Config (Some srcs))) <->
  exists s, In s srcs /\ In kv (default [] (source s)).
Proof.
  unfold items_in_order. cbn [propertySources default from_option id].
  rewrite in_flat_map. split; intros (s & Hs & Hkv); exists s; split; auto.
  - now apply in_rev.
  - now apply in_rev in Hs.
Qed.

(** X5: no matched property is lost, and none is made up: when a source
    holds [k] and a rule matches [k], the bucket of the rule holds after
    routing a value for [k], and this value is one that some source gives
    to [k]. *)
Theorem matched_key_reaches_the_bucket (log_level : Z) (srcs : list property_source)
    (ts : list target) (w : world) (s : property_source) (k : string) (v : scalar)
    (i : nat) (t : target) :
  In s srcs ->
  dict_get (default [] (source s)) k = Some v ->
  ts !! i = Some t ->
  target_matches t k = true ->
  exists ts' w' t' v',
    route_all log_level (Config (Some srcs)) ts w = (Returned ts', w')
    /\ ts' !! i = Some t'
    /\ dict_get (bucket t') k = Some v'
    /\ exists s', In s' srcs /\ In (k, v') (default [] (source s')).
Proof.
  intros Hs Hget Hi Hm.
  destruct (route_all_spec log_level (Config (Some srcs)) ts w) as (w' & E & _).
  assert (Hin : In (k, v) (items_in_order (Config (Some srcs)))).
  { apply in_items_in_order. exists s. split; auto. now apply dict_get_some_in. }
  destruct (last_binding_is_some _ _ _ Hin) as [v' Hl].
  eexists _, w', _, v'. split; [exact E|]. rewrite routed_lookup, Hi.
  split; [reflexivity|]. rewrite bucket_fold_any, Hm, Hl. split; [reflexivity|].
  apply in_items_in_order. now apply last_binding_some_in.
Qed.

Lemma matched_key_reaches_the_bucket_witness :
  exists ts' w' t' v',
    route_all 1 (Config (Some three_sources)) default_targets empty_world = (Returned ts', w')
    /\ ts' !! 2%nat = Some t'
    /\ dict_get (bucket t') "a" = Some v'
    /\ exists s', In s' three_sources /\ In ("a", v') (default [] (source s')).
Proof.
  apply (matched_key_reaches_the_bucket 1 three_sources default_targets empty_world
           (PropertySource (Some [("a", VStr "y")])) "a" (VStr "y") 2 yml_rule).
  - right. right. now left.
  - reflexivity.
  - reflexivity.
  - reflexivity.
Defined.

(** X6: a key that no source holds is left alone in every bucket: what a
    rule's bucket held for it before the run (a rule read from
    [VCAPX_CONFIG] may come with properties) is what it holds after. *)
Theorem absent_key_is_left_alone (log_level : Z) (srcs : list property_source)
    (ts : list target) (w : world) (k : string) (i : nat) (t : target) :
  (forall s, In s srcs -> dict_get (default [] (source s)) k = None) ->
  ts !! i = Some t ->
  exists ts' w' t',
    route_all log_level (Config (Some srcs)) ts w = (Returned ts', w')
    /\ ts' !! i = Some t'
    /\ dict_get (bucket t') k = dict_get (bucket t) k.
Proof.
  intros Hnone Hi.
  destruct (route_all_spec log_level (Config (Some srcs)) ts w) as (w' & E & _).
  eexists _, w', _. split; [exact E|]. rewrite routed_lookup, Hi.
  split; [reflexivity|]. rewrite bucket_fold_any.
  destruct (target_matches t k); auto.
  unfold items_in_order. cbn [propertySources default from_option id].
  rewrite last_binding_flat_none; auto.
  intros s Hs. apply Hnone. now apply in_rev.
Qed.

Lemma absent_key_is_left_alone_witness :
  exists ts' w' t',
    route_all 1 (Config (Some three_sources)) [filled_env_rule] empty_world = (Returned ts', w')
    /\ ts' !! 0%nat = Some t'
    /\ dict_get (bucket t') "A" = dict_get (bucket filled_env_rule) "A".
Proof.
  apply (absent_key_is_left_alone 1 three_sources [filled_env_rule] empty_world "A" 0
           filled_env_rule).
  - intros s [<- | [<- | [<- | []]]]; reflexivity.
  - reflexivity.
Defined.

(** ** The order and the keys of a bucket *)

Lemma dict_get_none_not_in {V : Type} (d : dict V) (k : string) :
  dict_get d k = None -> ~ In k (map fst d).
Proof.
  induction d as [|[k' v'] d IH]; simpl; [tauto|].
  destruct (String.eqb_spec k' k) as [->|Hne]; [discriminate|].
  intros H [Heq | Hin]; [congruence | now apply IH].
Qed.

Lemma dict_set_keys {V : Type} (d : dict V) (k : string) (v : V) :
  map fst (dict_set d k v) =
  match dict_get d k with
  | Some _ => map fst d
  | None => (map fst d ++ [k])%list
  end.
Proof.
  induction d as [|[k' v'] d IH]; simpl; auto.
  destruct (String.eqb k' k); simpl; auto.
  rewrite IH. now destruct (dict_get d k).
Qed.

(** X7: putting a property in a bucket keeps the order of the bucket: a key
    the bucket already has keeps its place and gets the new value, a new key
    goes last, and the value of every other key is left as it was. *)
Theorem bucket_keeps_insertion_order (key : string) (value : scalar) (t : target) :
  map fst (bucket (assign key value t)) =
    match dict_get (bucket t) key with
    | Some _ => map fst (bucket t)
    | None => (map fst (bucket t) ++ [key])%list
    end
  /\ dict_get (bucket (assign key value t)) key = Some value
  /\ forall k', k' <> key ->
       dict_get (bucket (assign key value t)) k' = dict_get (bucket t) k'.
Proof.
  rewrite bucket_assign. split; [apply dict_set_keys|].
  split; [apply dict_get_set_eq|].
  intros k' Hne. apply dict_get_set_ne. congruence.
Qed.

Lemma dict_set_NoDup {V : Type} (d : dict V) (k : string) (v : V) :
  NoDup (map fst d) -> NoDup (map fst (dict_set d k v)).
Proof.
  intros Hnd. rewrite dict_set_keys. destruct (dict_get d k) eqn:E; auto.
  apply NoDup_app. split; [exact Hnd|]. split.
  - intros x Hx Hk. apply list_elem_of_In in Hx. apply list_elem_of_In in Hk.
    destruct Hk as [<- | []]. now apply (dict_get_none_not_in d k).
  - apply NoDup_singleton.
Qed.

Lemma route1_NoDup (k : string) (v : scalar) (t : target) :
  NoDup (map fst (bucket t)) -> NoDup (map fst (bucket (route1 k v t))).
Proof.
  unfold route1. destruct (target_matches t k); auto.
  rewrite bucket_assign. apply dict_set_NoDup.
Qed.

(** X8: the buckets stay dictionaries: when no bucket holds a key twice
    before routing, none does after it, so every key is written once per
    destination. *)
Theorem buckets_keep_distinct_keys (log_level : Z) (cfg : config) (ts : list target) (w : world) :
  Forall (fun t => NoDup (map fst (bucket t))) ts ->
  exists ts' w',
    route_all log_level cfg ts w = (Returned ts', w')
    /\ Forall (fun t => NoDup (map fst (bucket t))) ts'.
Proof.
  intros H. destruct (route_all_spec log_level cfg ts w) as (w' & E & _).
  eexists _, w'. split; [exact E|]. clear E. unfold routed.
  generalize (items_in_order cfg). intros l. revert ts H.
  induction l as [|kv l IH]; intros ts H; simpl; auto.
  apply IH. apply Forall_map. eapply Forall_impl; [exact H|].
  intros t. apply route1_NoDup.
Qed.

Lemma buckets_keep_distinct_keys_witness :
  exists ts' w',
    route_all 1 (Config (Some repeated_key)) default_targets empty_world = (Returned ts', w')
    /\ Forall (fun t => NoDup (map fst (bucket t))) ts'.
Proof.
  apply (buckets_keep_distinct_keys 1 (Config (Some repeated_key)) default_targets empty_world).
  repeat constructor.
Defined.

(** * Properties of the writers *)

(** ** The environment destination *)

Lemma write_target_env (t : target) (w : world) :
  t_target t = Some "env" ->
  write_target t w = (Returned tt, written Stdout (pair_lines (bucket t)) w).
Proof.
  intros Ht. unfold write_target. rewrite Ht. fold (bucket t).
  destruct (bucket t) as [|kv rest] eqn:E.
  - cbn [length Nat.ltb Nat.leb pair_lines]. now rewrite written_nil.
  - cbn [length Nat.ltb Nat.leb default from_option id String.eqb Ascii.eqb Bool.eqb].
    change (fun kv0 : string * scalar => add_environment_variable kv0.1 kv0.2)
      with (fun kv0 : string * scalar => print Stdout [kv0.1; str kv0.2]).
    now rewrite (for_each_pair_lines Stdout).
Qed.

(** X9: a rule whose destination is [env] prints one line [key value] per
    pair of its bucket on standard output, in the order of the bucket; it
    never fails, whatever the values are, and it leaves standard error and
    the files alone. *)
Theorem env_rule_prints_its_bucket (t : target) (w : world) :
  t_target t = Some "env" ->
  write_target t w = (Returned tt, written Stdout (pair_lines (bucket t)) w).
Proof. apply write_target_env. Qed.

Lemma env_rule_prints_its_bucket_witness :
  write_target filled_env_rule empty_world =
    (Returned tt, World ("" +:+ pair_lines (bucket filled_env_rule)) "" ∅).
Proof. exact (env_rule_prints_its_bucket filled_env_rule empty_world eq_refl). Defined.

(** ** The yml renderer *)

(** X10: on a standard stream the yml renderer writes the line [---] and
    then one line [key value] per pair, the same lines the [env]
    destination prints; it takes values of every type. *)
Theorem yml_renderer_lines (f : file) (properties : list (string * scalar)) (w : world) :
  is_stream f = true ->
  write_property_file f properties "yml" w =
    (Returned tt, written f ("---" +:+ nl +:+ pair_lines properties) w).
Proof.
  intros Hf. unfold write_property_file. cbn [String.eqb Ascii.eqb Bool.eqb].
  unfold render_yml. rewrite bind_unfold, print_stream by assumption.
  rewrite for_each_pair_lines by assumption. now rewrite written_app.
Qed.

Lemma yml_renderer_lines_witness :
  write_property_file Stdout mixed_bucket "yml" empty_world =
    (Returned tt, written Stdout ("---" +:+ nl +:+ pair_lines mixed_bucket) empty_world).
Proof. exact (yml_renderer_lines Stdout mixed_bucket empty_world eq_refl). Defined.

(** ** The properties renderer *)

Lemma render_properties_strings (f : file) (l : list (string * string))
    (rest : list (string * scalar)) (w : world) :
  is_stream f = true ->
  render_properties f (map str_pair l ++ rest) w =
  render_properties f rest (written f (properties_lines l) w).
Proof.
  intros Hf. revert w. induction l as [|kv l IH]; intros w; simpl.
  - now rewrite written_nil.
  - unfold render_properties in *. cbn [for_each app map].
    rewrite bind_unfold. cbn [str_pair snd fst encode_value].
    rewrite bind_unfold. cbn [mret M_ret]. rewrite print_stream by assumption.
    rewrite IH, written_app. cbn [join_sp]. now rewrite ?append_assoc.
Qed.

(** X11: on a standard stream, for pairs whose values are strings, the
    properties renderer (formats [properties] and [text]) returns after
    writing one line per pair, and each line is the [repr] of the bytes
    [key=value], that is [b'key=value'], not [key=value]. *)
Theorem properties_renderer_lines (f : file) (l : list (string * string))
    (format : string) (w : world) :
  is_stream f = true ->
  format = "properties" \/ format = "text" ->
  write_property_file f (map str_pair l) format w =
    (Returned tt, written f (properties_lines l) w).
Proof.
  intros Hf Hformat.
  assert (E : write_property_file f (map str_pair l) format w =
              render_properties f (map str_pair l) w)
    by (destruct Hformat as [-> | ->]; reflexivity).
  rewrite E, <- (app_nil_r (map str_pair l)), render_properties_strings by assumption.
  reflexivity.
Qed.

Lemma properties_renderer_lines_witness :
  write_property_file Stderr (map str_pair [("a", "1"); ("b", "2")]) "text" empty_world =
    (Returned tt, written Stderr (properties_lines [("a", "1"); ("b", "2")]) empty_world).
Proof.
  apply (properties_renderer_lines Stderr [("a", "1"); ("b", "2")] "text" empty_world).
  - reflexivity.
  - now right.
Defined.

(** X12: the properties renderer fails at the first value that is not a
    string, which has no [encode].  On a standard stream the lines of the
    pairs before it are written, then [AttributeError] is raised and the
    pairs after it are not written.  On a file opened in binary mode the
    renderer fails at its first pair and writes nothing: [TypeError] when
    the value of that pair is a string, [AttributeError] when it is not. *)
Theorem properties_renderer_stops_at_non_string (f : file) (l : list (string * string))
    (k : string) (v : scalar) (rest : list (string * scalar)) (format : string) (w : world) :
  format = "properties" \/ format = "text" ->
  is_str v = false ->
  (is_stream f = true ->
   write_property_file f (map str_pair l ++ (k, v) :: rest) format w =
     (Raised AttributeError, written f (properties_lines l) w))
  /\ (forall path,
       write_property_file (Binary path) (map str_pair l ++ (k, v) :: rest) format w =
         (Raised (match l with [] => AttributeError | _ :: _ => TypeError end), w)).
Proof.
  intros Hformat Hv.
  assert (E : forall g, write_property_file g (map str_pair l ++ (k, v) :: rest) format w =
                        render_properties g (map str_pair l ++ (k, v) :: rest) w)
    by (intros g; destruct Hformat as [-> | ->]; reflexivity).
  split.
  - intros Hf. rewrite E, render_properties_strings by assumption.
    unfold render_properties. cbn [for_each]. rewrite bind_unfold. cbn [snd].
    destruct v; [discriminate Hv | reflexivity | reflexivity].
  - intros path. rewrite E. unfold render_properties.
    destruct l as [|kv l]; cbn [map app for_each]; rewrite bind_unfold; cbn [snd str_pair].
    + destruct v; [discriminate Hv | reflexivity | reflexivity].
    + reflexivity.
Qed.

Lemma properties_renderer_stops_at_non_string_witness :
  write_property_file Stdout mixed_bucket "properties" empty_world =
    (Raised AttributeError, written Stdout (properties_lines [("a", "1")]) empty_world)
  /\ write_property_file (Binary "out.properties") mixed_bucket "properties" empty_world =
    (Raised TypeError, empty_world).
Proof.
  destruct (properties_renderer_stops_at_non_string Stdout [("a", "1")] "port" (VInt 8080)
              [("b", VStr "2")] "properties" empty_world) as [Hs Hb].
  - now left.
  - reflexivity.
  - split; [exact (Hs eq_refl) | exact (Hb "out.properties")].
Defined.

(** ** File destinations *)

Lemma binary_write_fails (path : string) (properties : list (string * scalar))
    (format : string) (w : world) :
  properties <> [] ->
  known_format format = true ->
  exists e, write_property_file (Binary path) properties format w = (Raised e, w)
            /\ (e = TypeError \/ e = AttributeError).
Proof.
  intros Hp Hk. unfold write_property_file, known_format in *.
  destruct (String.eqb format "json"); [exists TypeError; auto|].
  destruct (String.eqb format "yml"); [exists TypeError; auto|].
  destruct (String.eqb format "properties"), (String.eqb format "text");
    try discriminate Hk; cbn [orb].
  all: destruct properties as [|[k v] rest]; [congruence|].
  all: unfold render_properties; cbn [for_each]; rewrite bind_unfold; cbn [snd].
  all: destruct v; [exists TypeError | exists AttributeError | exists AttributeError]; auto.
Qed.

Lemma write_target_file_raises (t : target) (path : string) (w : world) :
  t_target t = Some ("file:" +:+ path) ->
  bucket t <> [] ->
  known_format (file_format t path) = true ->
  exists e,
    write_target t w =
      (Raised e, match open_failure w path with
                 | None => truncated path w
                 | Some _ => w
                 end)
    /\ match open_failure w path with
       | None => e = TypeError \/ e = AttributeError
       | Some e' => e = e'
       end.
Proof.
  intros Ht Hb Hk.
  rewrite (write_target_file t path w) by (try rewrite Ht; auto).
  unfold with_open_wb. destruct (open_failure w path) as [e'|]; [now exists e'|].
  apply (binary_write_fails path _ _ (truncated path w) Hb Hk).
Qed.

(** X13: no file destination ever receives a property: for a rule with a
    bucket and a known format, writing it always raises.  When the file
    cannot be opened, the exception of [open] is raised and nothing changes.
    When it can, the file is created or emptied, then the renderer raises
    [TypeError] (it writes text to a file opened in binary mode) or
    [AttributeError] (a value that is not a string, in the properties
    format), nothing is printed and the file stays empty. *)
Theorem file_rule_always_fails (t : target) (path : string) (w : world) :
  t_target t = Some ("file:" +:+ path) ->
  bucket t <> [] ->
  known_format (file_format t path) = true ->
  exists e,
    write_target t w =
      (Raised e, match open_failure w path with
                 | None => truncated path w
                 | Some _ => w
                 end)
    /\ match open_failure w path with
       | None => e = TypeError \/ e = AttributeError
       | Some e' => e = e'
       end.
Proof. apply write_target_file_raises. Qed.

Lemma file_rule_always_fails_witness :
  (exists e, write_target out_yml_rule old_world = (Raised e, truncated "out.yml" old_world)
             /\ (e = TypeError \/ e = AttributeError))
  /\ (exists e, write_target refused_yml_rule refusing_world = (Raised e, refusing_world)
                /\ e = OSError).
Proof.
  split.
  - apply (file_rule_always_fails out_yml_rule "out.yml" old_world);
      [reflexivity | discriminate | reflexivity].
  - apply (file_rule_always_fails refused_yml_rule "nodir/out.dat" refusing_world);
      [reflexivity | discriminate | reflexivity].
Defined.

(** ** What the writers leave alone *)

Lemma keeps_ret {A X : Type} (proj : world -> X) (a : A) : keeps proj (mret a : M A).
Proof. intros w. reflexivity. Qed.

Lemma keeps_raise {A X : Type} (proj : world -> X) (e : exn) : keeps proj (raise e : M A).
Proof. intros w. reflexivity. Qed.

Lemma keeps_bind {A B X : Type} (proj : world -> X) (c : M A) (f : A -> M B) :
  keeps proj c -> (forall a, keeps proj (f a)) -> keeps proj (c ≫= f).
Proof.
  intros Hc Hf w. rewrite bind_unfold. specialize (Hc w).
  destruct (c w) as [[a | e | n] w1]; cbn in *; auto.
  now rewrite Hf.
Qed.

Lemma keeps_for_each {A X : Type} (proj : world -> X) (body : A -> M unit) (l : list A) :
  (forall x, keeps proj (body x)) -> keeps proj (for_each body l).
Proof.
  intros Hb. induction l as [|x l IH]; simpl.
  - apply keeps_ret.
  - apply keeps_bind; auto.
Qed.

Lemma keeps_files_write (f : file) (s : string) : keeps files (write f s).
Proof. intros w. now destruct f. Qed.

Lemma keeps_stdout_write (f : file) (s : string) : f <> Stdout -> keeps stdout (write f s).
Proof. intros Hf w. destruct f; [congruence | reflexivity | reflexivity]. Qed.

Lemma keeps_encode_value {X : Type} (proj : world -> X) (v : scalar) :
  keeps proj (encode_value v).
Proof. destruct v; [apply keeps_ret | apply keeps_raise | apply keeps_raise]. Qed.

(** The serializer writes on the file it is given and on standard error,
    nowhere else. *)
Lemma write_property_file_keeps {X : Type} (proj : world -> X) (f : file)
    (properties : list (string * scalar)) (format : string) :
  (forall g s, g = f \/ g = Stderr -> keeps proj (write g s)) ->
  keeps proj (write_property_file f properties format).
Proof.
  intros Hw. unfold write_property_file.
  destruct (String.eqb format "json"); [apply Hw; auto|].
  destruct (String.eqb format "yml").
  { unfold render_yml. apply keeps_bind; [apply Hw; auto|]. intros _.
    apply keeps_for_each. intros x. apply Hw. auto. }
  destruct (String.eqb format "properties" || String.eqb format "text").
  { unfold render_properties. apply keeps_for_each. intros x.
    apply keeps_bind; [apply keeps_encode_value|]. intros v. apply Hw. auto. }
  apply Hw. auto.
Qed.

(** X14: only a file destination touches the files: writing a rule whose
    destination does not start with [file:] leaves every file as it was,
    whether the rule is written, reported as illegal or fails. *)
Theorem only_file_rules_touch_files (t : target) (w : world) :
  Py.startswith (default "stderr" (t_target t)) "file:" = false ->
  files (write_target t w).2 = files w.
Proof.
  intros Hd. revert w. change (keeps files (write_target t)). unfold write_target.
  destruct (_ <? 1)%nat; [apply keeps_ret|].
  destruct (String.eqb _ "env").
  { apply keeps_for_each. intros x. apply keeps_files_write. }
  destruct (String.eqb _ "stderr").
  { apply write_property_file_keeps. intros. apply keeps_files_write. }
  destruct (String.eqb _ "stdout").
  { apply write_property_file_keeps. intros. apply keeps_files_write. }
  rewrite Hd. apply keeps_files_write.
Qed.

Lemma only_file_rules_touch_files_witness :
  files (write_target stdout_rule old_world).2 = files old_world.
Proof. exact (only_file_rules_touch_files stdout_rule old_world eq_refl). Defined.

Lemma keeps_stdout_with_open (path : string) (body : file -> M unit) :
  keeps stdout (body (Binary path)) -> keeps stdout (with_open_wb path body).
Proof.
  intros Hb w. unfold with_open_wb. destruct (open_failure w path); [reflexivity|].
  now rewrite Hb.
Qed.

(** X15: standard output is kept for the caller: only the destinations
    [env] and [stdout] write on it.  Writing a rule with any other
    destination, legal or not, leaves standard output as it was; the
    diagnostics go to standard error. *)
Theorem only_env_and_stdout_rules_print_on_stdout (t : target) (w : world) :
  default "stderr" (t_target t) <> "env" ->
  default "stderr" (t_target t) <> "stdout" ->
  stdout (write_target t w).2 = stdout w.
Proof.
  intros He Ho. apply String.eqb_neq in He. apply String.eqb_neq in Ho.
  revert w. change (keeps stdout (write_target t)). unfold write_target.
  destruct (_ <? 1)%nat; [apply keeps_ret|]. rewrite He, Ho.
  destruct (String.eqb _ "stderr").
  { apply write_property_file_keeps. intros g s [-> | ->]; now apply keeps_stdout_write. }
  destruct (Py.startswith _ "file:").
  - apply keeps_stdout_with_open.
    apply write_property_file_keeps. intros g s [-> | ->]; now apply keeps_stdout_write.
  - now apply keeps_stdout_write.
Qed.

Lemma only_env_and_stdout_rules_print_on_stdout_witness :
  stdout (write_target ini_rule old_world).2 = stdout old_world.
Proof.
  apply (only_env_and_stdout_rules_print_on_stdout ini_rule old_world); discriminate.
Defined.

(** * Properties of the run *)

(** ** Finding the service *)

Lemma find_first {A : Type} (p : A -> bool) (l : list A) (x : A) :
  List.find p l = Some x <->
  exists pre post, l = (pre ++ x :: post)%list /\ p x = true
                   /\ forall y, In y pre -> p y = false.
Proof.
  split.
  - induction l as [|a l IH]; simpl; [discriminate|].
    destruct (p a) eqn:Ha.
    + intros [= ->]. exists [], l. repeat split; auto. intros y [].
    + intros H. destruct (IH H) as (pre & post & -> & Hx & Hpre).
      exists (a :: pre), post. repeat split; auto.
      intros y [<- | Hy]; auto.
  - intros (pre & post & -> & Hx & Hpre).
    induction pre as [|a pre IH]; simpl.
    + now rewrite Hx.
    + rewrite (Hpre a) by now left. apply IH. intros y Hy. apply Hpre. now right.
Qed.

(** X16: the service chosen is the first instance, in the order of
    [VCAP_SERVICES], that carries both tags [spring-cloud] and
    [configuration], the tags of its credentials counting with its own; none
    is chosen exactly when no instance carries both. *)
Theorem first_tagged_instance_is_chosen (env : environ) (info : appinfo) :
  (forall i, find_spring_config_service env info = Some i <->
     exists pre post, all_instances env = (pre ++ i :: post)%list /\ tagged i = true
                      /\ forall j, In j pre -> tagged j = false)
  /\ (find_spring_config_service env info = None <->
      forall j, In j (all_instances env) -> tagged j = false).
Proof.
  split.
  - intros i. apply find_first.
  - split.
    + intros H j Hj. apply (find_none _ _ H j Hj).
    + intros H. destruct (find_spring_config_service env info) as [i|] eqn:E; auto.
      apply find_some in E as [Hin Ht]. pose proof (H i Hin) as Hf.
      unfold tagged in Hf. cbv beta in Ht. congruence.
Qed.

(** ** What ends the run with [sys.exit] *)

Lemma never_exits_ret {A : Type} (a : A) : never_exits (mret a : M A).
Proof. intros w n w'. discriminate. Qed.

Lemma never_exits_raise {A : Type} (e : exn) : never_exits (raise e : M A).
Proof. intros w n w'. discriminate. Qed.

Lemma never_exits_bind {A B : Type} (c : M A) (f : A -> M B) :
  never_exits c -> (forall a, never_exits (f a)) -> never_exits (c ≫= f).
Proof.
  intros Hc Hf w n w'. rewrite bind_unfold. specialize (Hc w).
  destruct (c w) as [[a | e | m] w1].
  - apply Hf.
  - discriminate.
  - exfalso. now apply (Hc m w1).
Qed.

Lemma never_exits_for_each {A : Type} (body : A -> M unit) (l : list A) :
  (forall x, never_exits (body x)) -> never_exits (for_each body l).
Proof.
  intros Hb. induction l as [|x l IH]; simpl.
  - apply never_exits_ret.
  - apply never_exits_bind; auto.
Qed.

Lemma never_exits_write (f : file) (s : string) : never_exits (write f s).
Proof. intros w n w'. destruct f; discriminate. Qed.

Lemma never_exits_print (f : file) (args : list string) : never_exits (print f args).
Proof. apply never_exits_write. Qed.

Lemma never_exits_when (b : bool) (c : M unit) :
  never_exits c -> never_exits (if b then c else mret tt).
Proof. destruct b; auto using never_exits_ret. Qed.

Lemma never_exits_load {A : Type} (r : fetched A) : never_exits (load r).
Proof. destruct r; simpl; auto using never_exits_ret, never_exits_raise. Qed.

Lemma never_exits_write_property_file (f : file) (properties : list (string * scalar))
    (format : string) :
  never_exits (write_property_file f properties format).
Proof.
  unfold write_property_file.
  destruct (String.eqb format "json"); [apply never_exits_write|].
  destruct (String.eqb format "yml").
  { apply never_exits_bind; [apply never_exits_print|]. intros _.
    apply never_exits_for_each. intros x. apply never_exits_print. }
  destruct (_ || _); [|apply never_exits_print].
  apply never_exits_for_each. intros x. apply never_exits_bind.
  - destruct x.2; simpl; auto using never_exits_ret, never_exits_raise.
  - intros v. apply never_exits_print.
Qed.

Lemma never_exits_write_target (t : target) : never_exits (write_target t).
Proof.
  unfold write_target.
  destruct (_ <? 1)%nat; [apply never_exits_ret|].
  destruct (String.eqb _ "env").
  { apply never_exits_for_each. intros x. apply never_exits_print. }
  destruct (String.eqb _ "stderr"); [apply never_exits_write_property_file|].
  destruct (String.eqb _ "stdout"); [apply never_exits_write_property_file|].
  destruct (Py.startswith _ "file:"); [|apply never_exits_print].
  intros w n w'. unfold with_open_wb. destruct (open_failure w _); [discriminate|].
  apply never_exits_write_property_file.
Qed.

Lemma never_exits_route_all (log_level : Z) (cfg : config) (ts : list target) :
  never_exits (route_all log_level cfg ts).
Proof.
  intros w n w'. destruct (route_all_spec log_level cfg ts w) as (w1 & E & _).
  rewrite E. discriminate.
Qed.

Lemma never_exits_save (json_dumps : vcap_config -> string) (vc : vcap_config)
    (log_level : Z) (service : instance) (cfg : config) :
  never_exits (save_config_properties json_dumps vc log_level service cfg).
Proof.
  unfold save_config_properties.
  apply never_exits_bind; [apply never_exits_route_all|]. intros ts.
  apply never_exits_bind.
  { apply never_exits_for_each. intros x. apply never_exits_write_target. }
  intros _. apply never_exits_bind; [apply never_exits_print|]. intros _.
  apply never_exits_ret.
Qed.

Lemma never_exits_get_access_token (net : network) (c : credentials) :
  never_exits (get_access_token net c).
Proof.
  unfold get_access_token. destruct (access_token_uri c); [|apply never_exits_ret].
  apply never_exits_bind; [apply never_exits_load|]. intros r.
  destruct (token_type r), (access_token r); auto using never_exits_ret, never_exits_raise.
Qed.

Lemma never_exits_try {A : Type} (body : M A) (handler : exn -> M A) :
  never_exits body -> (forall e, never_exits (handler e)) ->
  never_exits (try_except_URLError body handler).
Proof.
  intros Hb Hh w n w'. unfold try_except_URLError. specialize (Hb w).
  destruct (body w) as [[a | e | m] w1].
  - discriminate.
  - destruct e; try discriminate; apply Hh.
  - exfalso. now apply (Hb m w1).
Qed.

Lemma never_exits_get_spring_cloud_config (json_dump_service : instance -> string)
    (json_dump_config : config -> string) (json_dumps : vcap_config -> string)
    (net : network) (vc : vcap_config) (log_level : Z) (service : instance) (info : appinfo) :
  never_exits (get_spring_cloud_config json_dump_service json_dump_config json_dumps
                 net vc log_level service info).
Proof.
  unfold get_spring_cloud_config.
  apply never_exits_bind.
  { apply never_exits_when. apply never_exits_bind; [apply never_exits_print|]. intros _.
    apply never_exits_bind; [apply never_exits_write|]. intros _. apply never_exits_print. }
  intros _. apply never_exits_bind; [apply never_exits_get_access_token|]. intros token.
  destruct (uri _).
  - apply never_exits_bind.
    + apply never_exits_try.
      * apply never_exits_bind; [apply never_exits_when, never_exits_print|]. intros _.
        apply never_exits_bind; [apply never_exits_load|]. intros cfg. apply never_exits_ret.
      * intros e. unfold report_fetch_error. destruct e; try apply never_exits_raise.
        apply never_exits_bind; [apply never_exits_print|]. intros _.
        apply never_exits_bind; [apply never_exits_print|]. intros _. apply never_exits_ret.
    + intros [vc' | cfg]; [apply never_exits_ret|].
      apply never_exits_bind; [|intros _; apply never_exits_save].
      apply never_exits_when. apply never_exits_bind; [apply never_exits_write|].
      intros _. apply never_exits_print.
  - apply never_exits_bind; [apply never_exits_print|]. intros _. apply never_exits_ret.
Qed.

(** X17: [main] calls [sys.exit] in one case only.  When [VCAP_APPLICATION]
    has no [application_name] it prints one line on standard error and exits
    with status 1 before anything else happens; and whenever [main] ends by
    [sys.exit], whatever the environment and the network are, the name was
    missing.  (An exception that leaves [main] is another way to end.) *)
Theorem main_exits_only_without_a_name (json_dump_service : instance -> string)
    (json_dump_config : config -> string) (json_dumps : vcap_config -> string)
    (env : environ) (net : network) (w : world) :
  (application_name (VCAP_APPLICATION env) = None ->
   main json_dump_service json_dump_config json_dumps env net w =
     (Exited 1, reported w ["VCAP_APPLICATION must specify application_name"]))
  /\ (forall n w',
        main json_dump_service json_dump_config json_dumps env net w = (Exited n, w') ->
        application_name (VCAP_APPLICATION env) = None).
Proof.
  unfold main, get_application_info. split.
  - intros ->. reflexivity.
  - intros n w'. destruct (application_name _) as [nm|]; [|reflexivity].
    rewrite bind_unfold. cbn [mret M_ret].
    destruct (find_spring_config_service _ _); [|discriminate].
    intros H. exfalso. revert H. apply never_exits_get_spring_cloud_config.
Qed.

(** X18: with a name and no instance that carries both tags, [main] does
    nothing: it returns the configuration it read, and the world is as it
    was; the network is not used. *)
Theorem main_without_service_does_nothing (json_dump_service : instance -> string)
    (json_dump_config : config -> string) (json_dumps : vcap_config -> string)
    (env : environ) (net : network) (w : world) (n : string) :
  application_name (VCAP_APPLICATION env) = Some n ->
  (forall j, In j (all_instances env) -> tagged j = false) ->
  main json_dump_service json_dump_config json_dumps env net w = (Returned (VCAPX_CONFIG env), w).
Proof.
  intros Hn Hnone. unfold main, get_application_info. rewrite Hn, bind_unfold.
  cbn [mret M_ret].
  destruct (find_spring_config_service env _) as [i|] eqn:E; [|reflexivity].
  apply find_some in E as [Hin Ht]. pose proof (Hnone i Hin) as Hf.
  unfold tagged in Hf. cbv beta in Ht. congruence.
Qed.

Lemma main_without_service_does_nothing_witness :
  main (fun _ => "") (fun _ => "") (fun _ => "") unbound_environ token_down old_world =
    (Returned (VCAPX_CONFIG unbound_environ), old_world).
Proof.
  apply (main_without_service_does_nothing (fun _ => "") (fun _ => "") (fun _ => "")
           unbound_environ token_down old_world "app").
  - reflexivity.
  - intros j [<- | []]. reflexivity.
Defined.

(** ** [detect] *)

(** X19: [detect] prints [spring-config] on standard output and returns
    exactly when the application has a name and an instance carries both
    tags; without a name it exits with status 1 after one line on standard
    error, and with a name but no such instance it exits with status 1
    without a word. *)
Theorem detect_outcomes (env : environ) (w : world) :
  detect env w =
    match application_name (VCAP_APPLICATION env) with
    | None => (Exited 1, reported w ["VCAP_APPLICATION must specify application_name"])
    | Some _ =>
        if existsb tagged (all_instances env)
        then (Returned tt, written Stdout ("spring-config" +:+ nl) w)
        else (Exited 1, w)
    end.
Proof.
  unfold detect, get_application_info.
  destruct (application_name _) as [n|]; [|reflexivity].
  rewrite bind_unfold. cbn [mret M_ret].
  unfold find_spring_config_service, all_instances.
  generalize (flat_map snd (VCAP_SERVICES env)). intros l.
  induction l as [|i l IH]; [reflexivity|]. simpl.
  unfold tagged at 1. destruct (_ && _); [reflexivity | exact IH].
Qed.

(** ** Asking for the token and the configuration *)




Lemma get_access_token_any_world (net : network) (c : credentials) (w w' : world) :
  get_access_token net c w' = ((get_access_token net c w).1, w').
Proof.
  unfold get_access_token. destruct (access_token_uri c); [|reflexivity].
  rewrite !bind_unfold. destruct (token_endpoint net _); try reflexivity.
  cbn. destruct (token_type a), (access_token a); reflexivity.
Qed.

(** X21: once the token step has returned (the credentials name no token
    endpoint, or the token was obtained), a service without a [uri] is
    reported and skipped: one line on standard error says that a uri is
    needed, after the trace of the service when the log level is above 1;
    the server is not asked, no property is routed and the configuration is
    returned as it was.  (When the token step raises, the run ends there and
    the missing uri is not reported.) *)
Theorem missing_uri_is_reported
    (json_dump_service : instance -> string) (json_dump_config : config -> string)
    (json_dumps : vcap_config -> string) (net : network) (vc : vcap_config)
    (log_level : Z) (service : instance) (info : appinfo) (w : world) (token : option string) :
  (get_access_token net (default no_credentials (inst_credentials service)) w).1
    = Returned token ->
  uri (default no_credentials (inst_credentials service)) = None ->
  get_spring_cloud_config json_dump_service json_dump_config json_dumps
    net vc log_level service info w
  = (Returned vc,
     reported (service_traced json_dump_service log_level service w)
       ["services of type spring-config-server must specify a uri"]).
Proof.
  intros Ht Hu. unfold get_spring_cloud_config, service_traced.
  rewrite bind_unfold.
  assert (E : (if 1 <? log_level
               then print Stderr ["spring-cloud-config:"];;
                    write Stderr (json_dump_service service);; print Stderr []
               else mret tt) w
              = (Returned tt,
                 if 1 <? log_level
                 then written Stderr
                        ("spring-cloud-config:" +:+ nl +:+ json_dump_service service +:+ nl) w
                 else w)).
  { destruct (1 <? log_level); [|reflexivity].
    rewrite bind_unfold, print_stream by reflexivity.
    rewrite bind_unfold. change (write Stderr ?s ?w0) with (Returned tt, written Stderr s w0).
    cbv beta iota. rewrite print_stream, !written_app by reflexivity.
    cbn [join_sp]. now rewrite ?append_assoc. }
  rewrite E, bind_unfold.
  rewrite (get_access_token_any_world net _ w), Ht, Hu. reflexivity.
Qed.

Lemma missing_uri_is_reported_witness :
  get_spring_cloud_config (fun _ => "{}") (fun _ => "") (fun _ => "")
    server_404 no_vcap_config 2 token_service_without_uri app_info empty_world
  = (Returned no_vcap_config,
     reported (service_traced (fun _ => "{}") 2 token_service_without_uri empty_world)
       ["services of type spring-config-server must specify a uri"]).
Proof.
  apply (missing_uri_is_reported (fun _ => "{}") (fun _ => "") (fun _ => "")
           server_404 no_vcap_config 2 token_service_without_uri app_info empty_world
           (Some "bearer tok")).
  - reflexivity.
  - reflexivity.
Defined.



(** ** The end of [save_config_properties] *)

(** X23: when [save_config_properties] returns, the configuration it leaves
    is the one it was given with its [targets] replaced by the routed rules
    (the default rules when it had none), log level and TLS flag unchanged;
    and the last line on standard output is [VCAP_CONFIG] followed by the
    JSON text of that configuration. *)
Theorem returned_configuration_holds_the_routed_rules (json_dumps : vcap_config -> string)
    (vc : vcap_config) (log_level : Z) (service : instance) (cfg : config)
    (w w' : world) (vc' : vcap_config) :
  save_config_properties json_dumps vc log_level service cfg w = (Returned vc', w') ->
  vc' = VcapConfig (loglevel vc) (skip_ssl_validation vc)
          (Some (routed (items_in_order cfg) (default default_targets (targets vc))))
  /\ exists out, stdout w' = out +:+ "VCAP_CONFIG " +:+ json_dumps vc' +:+ nl.
Proof.
  unfold save_config_properties. rewrite bind_unfold.
  destruct (route_all_spec log_level cfg (default default_targets (targets vc)) w)
    as (w1 & E & _).
  rewrite E, bind_unfold.
  destruct (write_targets _ w1) as [[[] | e | n] w2]; try discriminate.
  rewrite bind_unfold. cbn. intros [= <- <-]. split; [reflexivity|].
  exists (stdout w2). cbn. now rewrite ?append_assoc.
Qed.

Lemma write_targets_env (ts : list target) (w : world) :
  Forall (fun t => t_target t = Some "env") ts ->
  write_targets ts w = (Returned tt, written Stdout (env_output ts) w).
Proof.
  intros H. revert w. induction H as [|t ts Ht Hts IH]; intros w.
  - cbn [write_targets for_each env_output]. unfold write_targets. cbn [for_each].
    now rewrite written_nil.
  - unfold write_targets in *. cbn [for_each]. rewrite bind_unfold, write_target_env by assumption.
    rewrite IH. cbn [env_output]. now rewrite written_app.
Qed.

Lemma routed_env (l : list (string * scalar)) (ts : list target) :
  Forall (fun t => t_target t = Some "env") ts ->
  Forall (fun t => t_target t = Some "env") (routed l ts).
Proof.
  unfold routed. revert ts. induction l as [|kv l IH]; intros ts H; simpl; auto.
  apply IH. apply Forall_map. eapply Forall_impl; [exact H|].
  intros t Ht. cbn. destruct (route1_keeps kv.1 kv.2 t) as (_ & _ & [E | [E _]]); congruence.
Qed.

(** X24: a rule set whose destinations are all [env] always completes,
    whatever the properties are: every bucket is printed on standard output
    as [key value] lines, rule after rule, then the [VCAP_CONFIG] line, and
    no file is touched. *)
Theorem env_only_rules_complete (json_dumps : vcap_config -> string)
    (vc : vcap_config) (log_level : Z) (service : instance) (cfg : config) (w : world) :
  Forall (fun t => t_target t = Some "env") (default default_targets (targets vc)) ->
  exists vc' w',
    save_config_properties json_dumps vc log_level service cfg w = (Returned vc', w')
    /\ targets vc' = Some (routed (items_in_order cfg) (default default_targets (targets vc)))
    /\ stdout w' =
         stdout w
         +:+ env_output (routed (items_in_order cfg) (default default_targets (targets vc)))
         +:+ "VCAP_CONFIG " +:+ json_dumps vc' +:+ nl
    /\ files w' = files w.
Proof.
  intros H. unfold save_config_properties. 
  destruct (route_all_spec log_level cfg (default default_targets (targets vc)) w)
    as (w1 & E & Ho & Hf).
  eexists _, _. rewrite bind_unfold, E, bind_unfold.
  rewrite write_targets_env by now apply routed_env.
  rewrite bind_unfold. cbn. split; [reflexivity|]. split; [reflexivity|].
  rewrite Ho, Hf. split; [|reflexivity]. now rewrite ?append_assoc.
Qed.

Lemma env_only_rules_complete_witness :
  exists vc' w',
    save_config_properties (fun _ => "{}") env_only_vcap_config 0 bound_service
      env_only_config empty_world = (Returned vc', w')
    /\ targets vc' =
         Some (routed (items_in_order env_only_config)
                      (default default_targets (targets env_only_vcap_config)))
    /\ stdout w' =
         stdout empty_world
         +:+ env_output (routed (items_in_order env_only_config)
                                (default default_targets (targets env_only_vcap_config)))
         +:+ "VCAP_CONFIG " +:+ (fun _ : vcap_config => "{}") vc' +:+ nl
    /\ files w' = files empty_world.
Proof.
  apply (env_only_rules_complete (fun _ => "{}") env_only_vcap_config 0 bound_service
           env_only_config empty_world).
  repeat constructor.
Defined.

Lemma returned_configuration_holds_the_routed_rules_witness :
  exists vc' w',
    save_config_properties (fun _ => "{}") env_only_vcap_config 0 bound_service
      env_only_config empty_world = (Returned vc', w')
    /\ vc' = VcapConfig (loglevel env_only_vcap_config) (skip_ssl_validation env_only_vcap_config)
               (Some (routed (items_in_order env_only_config)
                             (default default_targets (targets env_only_vcap_config))))
    /\ exists out, stdout w' = out +:+ "VCAP_CONFIG " +:+ (fun _ : vcap_config => "{}") vc' +:+ nl.
Proof.
  eexists _, _. split; [vm_compute; reflexivity|].
  eapply (returned_configuration_holds_the_routed_rules (fun _ => "{}") env_only_vcap_config 0
            bound_service env_only_config empty_world).
  vm_compute. reflexivity.
Defined.

(** * The default filters *)

Lemma star_class (k : nat) (ranges : list (ascii * ascii)) (fuel : nat) (s : string) :
  (String.length s <= fuel)%nat ->
  Re.star_iter (Re.ends k (Re.Class false ranges)) fuel s = class_suffixes ranges s.
Proof.
  revert s. induction fuel as [|n IH]; intros s Hlen.
  - destruct s; [reflexivity | simpl in Hlen; lia].
  - destruct s as [|a s']; [reflexivity|].
    cbn [Re.star_iter Re.ends class_suffixes xorb].
    destruct (Re.in_ranges ranges a); [|reflexivity].
    cbn [flat_map]. rewrite app_nil_r.
    assert (E : (String.length s' <? String.length (String a s'))%nat = true)
      by (apply Nat.ltb_lt; simpl; lia).
    rewrite E, IH by (simpl in Hlen; lia). reflexivity.
Qed.

Lemma in_class_suffixes (ranges : list (ascii * ascii)) (s s' : string) :
  In s' (class_suffixes ranges s) <-> exists p, s = p +:+ s' /\ all_in ranges p = true.
Proof.
  split.
  - revert s'. induction s as [|a t IH]; intros s' H.
    + destruct H as [<- | []]. now exists "".
    + destruct H as [<- | H]; [now exists ""|].
      destruct (Re.in_ranges ranges a) eqn:Ha; [|destruct H].
      destruct (IH s' H) as (p & -> & Hp). exists (String a p). split; [reflexivity|].
      cbn. now rewrite Ha, Hp.
  - intros (p & -> & Hp). revert Hp. induction p as [|a p IH]; intros Hp.
    + destruct s'; now left.
    + cbn in Hp. apply andb_true_iff in Hp as [Ha Hp].
      change (String a p +:+ s') with (String a (p +:+ s')).
      cbn [class_suffixes]. rewrite Ha. right. now apply IH.
Qed.

Lemma nonempty_flat_map {A B : Type} (f : A -> list B) (l : list A) :
  match flat_map f l with [] => false | _ :: _ => true end = true <->
  exists x, In x l /\ f x <> [].
Proof.
  induction l as [|a l IH]; simpl.
  - split; [discriminate | intros (x & [] & _)].
  - destruct (f a) as [|b bs] eqn:E; simpl.
    + rewrite IH. split; intros (x & Hx & Hf); exists x; split; auto.
      destruct Hx as [<- | Hx]; [congruence | exact Hx].
    + split; [|reflexivity]. intros _. exists a. split; [now left | congruence].
Qed.

Lemma ends_eol (k : nat) (s : string) :
  Re.ends k Re.Eol s <> [] <-> s = "" \/ s = nl.
Proof.
  destruct s as [|a [|b s]]; cbn [Re.ends].
  - split; [now left | discriminate].
  - destruct (Ascii.eqb_spec a Re.newline) as [->|Hne].
    + split; [now right | discriminate].
    + split; [intros H; now contradict H|].
      intros [H | [= H]]; [discriminate | exfalso; now apply Hne].
  - split; [intros H; now contradict H|]. intros [H | H]; discriminate.
Qed.

Lemma ends_seq (k : nat) (r1 r2 : Re.regex) (s : string) :
  Re.ends k (Re.Seq r1 r2) s = flat_map (Re.ends k r2) (Re.ends k r1 s).
Proof. reflexivity. Qed.

Lemma ends_plus (k : nat) (r : Re.regex) (s : string) :
  Re.ends k (Re.Plus r) s =
  flat_map (fun s' => Re.star_iter (Re.ends k r) (String.length s') s') (Re.ends k r s).
Proof. reflexivity. Qed.

Lemma ends_plus_class (k : nat) (ranges : list (ascii * ascii)) (s : string) :
  Re.ends k (Re.Plus (Re.Class false ranges)) s =
  match s with
  | String a t => if Re.in_ranges ranges a then class_suffixes ranges t else []
  | EmptyString => []
  end.
Proof.
  rewrite ends_plus. destruct s as [|a t]; [reflexivity|].
  change (Re.ends k (Re.Class false ranges) (String a t))
    with (if xorb false (Re.in_ranges ranges a) then [t] else []).
  cbn [xorb]. destruct (Re.in_ranges ranges a); [|reflexivity].
  cbn [flat_map]. now rewrite app_nil_r, star_class.
Qed.

Lemma matches_class_word (ranges : list (ascii * ascii)) (key : string) :
  Re.matches (Re.Seq (Re.Plus (Re.Class false ranges)) Re.Eol) key = true <->
  class_word ranges key.
Proof.
  unfold Re.matches. rewrite ends_seq, nonempty_flat_map, ends_plus_class. split.
  - intros (x & Hx & He). apply ends_eol in He.
    destruct key as [|a t]; [destruct Hx|].
    destruct (Re.in_ranges ranges a) eqn:Ha; [|destruct Hx].
    apply in_class_suffixes in Hx as (p & -> & Hp).
    exists (String a p). split; [discriminate|]. split; [cbn; now rewrite Ha, Hp|].
    destruct He as [-> | ->]; [left | right]; cbn; now rewrite ?append_nil_r.
  - intros (body & Hne & Hall & Hkey).
    destruct body as [|a p]; [congruence|]. cbn in Hall.
    apply andb_true_iff in Hall as [Ha Hp].
    destruct Hkey as [-> | ->].
    + exists "". split; [|apply ends_eol; now left].
      rewrite Ha. apply in_class_suffixes. exists p. now rewrite append_nil_r.
    + exists nl. split; [|apply ends_eol; now right].
      change (String a p +:+ nl) with (String a (p +:+ nl)). cbv beta iota.
      rewrite Ha. apply in_class_suffixes. now exists p.
Qed.

(** X25: which keys the default rules for [env] and for the yml file take.
    The filter [[0-9A-Z_]+$] matches a key exactly when it is one or more
    characters of [0-9A-Z_], followed or not by one line feed; the filter
    [[a-z0-9]+$] does the same with [a-z0-9].  So [$] lets a key that ends
    with a line feed through. *)
Theorem default_word_filters (key : string) :
  (target_matches env_rule key = true <-> class_word upper_ranges key)
  /\ (target_matches yml_rule key = true <-> class_word lower_ranges key).
Proof. split; apply matches_class_word. Qed.

(** ** How the default rules overlap *)

Lemma contains_app_dot (p x : string) : Py.contains "." (p +:+ String "." x) = true.
Proof.
  induction p as [|a p IH]; [reflexivity|].
  change (String a p +:+ String "." x) with (String a (p +:+ String "." x)).
  cbn [Py.contains]. rewrite IH. apply orb_true_r.
Qed.

Lemma all_in_no_dot (ranges : list (ascii * ascii)) (body tail : string) :
  Re.in_ranges ranges "." = false ->
  all_in ranges body = true ->
  Py.contains "." tail = false ->
  Py.contains "." (body +:+ tail) = false.
Proof.
  intros Hdot Hall Ht. induction body as [|a b IH]; [exact Ht|].
  change (String a b +:+ tail) with (String a (b +:+ tail)).
  cbn in Hall. apply andb_true_iff in Hall as [Ha Hb].
  cbn [Py.contains]. rewrite (IH Hb).
  destruct (Ascii.eqb_spec a "."%char) as [->|]; [congruence | reflexivity].
Qed.

Lemma class_word_no_dot (ranges : list (ascii * ascii)) (key : string) :
  Re.in_ranges ranges "." = false ->
  class_word ranges key -> Py.contains "." key = false.
Proof.
  intros Hdot (body & _ & Hall & Hkey).
  destruct Hkey as [-> | ->].
  - rewrite <- (append_nil_r body). now apply (all_in_no_dot ranges).
  - now apply (all_in_no_dot ranges).
Qed.

(** The group [([a-z0-9]+\.)] ends on a dot. *)
Lemma ends_group (k : nat) (ranges : list (ascii * ascii)) (s x : string) :
  In x (Re.ends k (Re.Seq (Re.Plus (Re.Class false ranges)) (Re.Lit ".")) s) ->
  exists p, s = p +:+ String "." x.
Proof.
  rewrite ends_seq, in_flat_map. intros (y & Hy & Hx).
  rewrite ends_plus_class in Hy. destruct s as [|a t]; [destruct Hy|].
  destruct (Re.in_ranges ranges a); [|destruct Hy].
  apply in_class_suffixes in Hy as (p & -> & _).
  destruct y as [|b y]; [destruct Hx|]. cbn [Re.ends] in Hx.
  destruct (Ascii.eqb_spec b "."%char) as [->|]; [|destruct Hx].
  destruct Hx as [<- | []]. now exists (String a p).
Qed.

Lemma star_group (f : string -> list string) (fuel : nat) (s x : string) :
  (forall s x, In x (f s) -> exists p, s = p +:+ String "." x) ->
  In x (Re.star_iter f fuel s) ->
  x = s \/ exists p, s = p +:+ String "." x.
Proof.
  intros Hf. revert s. induction fuel as [|n IH]; intros s; cbn [Re.star_iter].
  - intros [<- | []]. now left.
  - intros [<- | H]; [now left|]. right.
    apply in_flat_map in H as (s' & Hs' & Hx).
    destruct (_ <? _)%nat; [|destruct Hx].
    destruct (Hf _ _ Hs') as (p & ->).
    destruct (IH _ Hx) as [-> | (p' & ->)]; [now exists p|].
    exists (p +:+ String "." p'). rewrite append_assoc. reflexivity.
Qed.

Lemma properties_rule_has_dot (key : string) :
  target_matches properties_rule key = true -> Py.contains "." key = true.
Proof.
  unfold target_matches, properties_rule. cbn [t_filter default from_option id].
  unfold Re.matches. rewrite ends_seq. intros H.
  apply nonempty_flat_map in H as (x & Hx & _).
  rewrite ends_plus, in_flat_map in Hx. destruct Hx as (s' & Hs' & Hx).
  apply ends_group in Hs' as (p & ->).
  apply star_group in Hx; [|apply ends_group].
  destruct Hx as [-> | (p' & ->)]; apply contains_app_dot.
Qed.

(** X26: among the default rules the one for the properties file shares no
    key with the others: a key it takes holds a dot, and a key that the
    [env] rule or the yml rule takes holds none. *)
Theorem properties_rule_shares_no_key (key : string) :
  (target_matches properties_rule key = true -> Py.contains "." key = true)
  /\ (target_matches env_rule key = true -> Py.contains "." key = false)
  /\ (target_matches yml_rule key = true -> Py.contains "." key = false)
  /\ (target_matches properties_rule key = true ->
      target_matches env_rule key = false /\ target_matches yml_rule key = false).
Proof.
  assert (He : target_matches env_rule key = true -> Py.contains "." key = false).
  { intros H. apply (class_word_no_dot upper_ranges); [reflexivity|].
    now apply matches_class_word. }
  assert (Hy : target_matches yml_rule key = true -> Py.contains "." key = false).
  { intros H. apply (class_word_no_dot lower_ranges); [reflexivity|].
    now apply matches_class_word. }
  split; [apply properties_rule_has_dot|]. split; [exact He|]. split; [exact Hy|].
  intros H. apply properties_rule_has_dot in H. split.
  - destruct (target_matches env_rule key); [|reflexivity]. rewrite He in H; congruence.
  - destruct (target_matches yml_rule key); [|reflexivity]. rewrite Hy in H; congruence.
Qed.

Lemma word_rest_all_in (ranges : list (ascii * ascii)) (b : string) :
  all_in ranges b = true -> word_rest ranges b = true.
Proof.
  induction b as [|a b IH]; [reflexivity|]. cbn [all_in word_rest].
  intros H. apply andb_true_iff in H as [Ha Hb].
  destruct b; [now rewrite Ha | now rewrite Ha, IH].
Qed.

Lemma word_rest_all_in_nl (ranges : list (ascii * ascii)) (b : string) :
  all_in ranges b = true -> word_rest ranges (b +:+ nl) = true.
Proof.
  induction b as [|a b IH]; [intros _; cbn; apply orb_true_r|]. cbn [all_in].
  intros H. apply andb_true_iff in H as [Ha Hb].
  change (String a b +:+ nl) with (String a (b +:+ nl)). cbn [word_rest].
  specialize (IH Hb). destruct b; cbn in *; now rewrite Ha.
Qed.

Lemma word_rest_body (ranges : list (ascii * ascii)) (s : string) :
  word_rest ranges s = true ->
  exists b, all_in ranges b = true /\ (s = b \/ s = b +:+ nl).
Proof.
  induction s as [|a s IH]; [exists ""; auto|]. cbn [word_rest].
  destruct s as [|c s].
  - intros H. apply orb_true_iff in H as [Ha | Ha].
    + exists (String a ""). cbn. rewrite Ha. auto.
    + apply Ascii.eqb_eq in Ha. subst a. exists "". auto.
  - intros H. apply andb_true_iff in H as [Ha Hs].
    destruct (IH Hs) as (b & Hb & Hkey). exists (String a b). cbn [all_in].
    rewrite Ha, Hb. split; [reflexivity|].
    destruct Hkey as [-> | ->]; auto.
Qed.

Lemma class_word_iff (ranges : list (ascii * ascii)) (key : string) :
  class_word ranges key <-> is_word ranges key = true.
Proof.
  split.
  - intros ([|a b] & Hne & Hall & Hkey); [congruence|].
    cbn [all_in] in Hall. apply andb_true_iff in Hall as [Ha Hb].
    destruct Hkey as [-> | ->].
    + cbn [is_word]. now rewrite Ha, word_rest_all_in.
    + change (String a b +:+ nl) with (String a (b +:+ nl)).
      cbn [is_word]. now rewrite Ha, word_rest_all_in_nl.
  - destruct key as [|a s]; [discriminate|]. cbn [is_word].
    intros H. apply andb_true_iff in H as [Ha Hs].
    destruct (word_rest_body _ _ Hs) as (b & Hb & Hkey).
    exists (String a b). split; [discriminate|]. cbn [all_in]. rewrite Ha, Hb.
    split; [reflexivity|]. destruct Hkey as [-> | ->]; auto.
Qed.

(** A character is in [[0-9A-Z_]] and in [[a-z0-9]] exactly when it is a
    digit. *)
Lemma upper_and_lower_is_digit (a : ascii) :
  Re.in_ranges upper_ranges a && Re.in_ranges lower_ranges a = Re.in_ranges digit_ranges a.
Proof. destruct a as [[] [] [] [] [] [] [] []]; reflexivity. Qed.

Lemma word_rest_upper_lower (s : string) :
  word_rest upper_ranges s && word_rest lower_ranges s = word_rest digit_ranges s.
Proof.
  induction s as [|a s IH]; [reflexivity|]. cbn [word_rest].
  destruct s as [|c s].
  - rewrite <- upper_and_lower_is_digit.
    destruct (Re.in_ranges upper_ranges a), (Re.in_ranges lower_ranges a),
      (Ascii.eqb a Re.newline); reflexivity.
  - rewrite <- IH, <- upper_and_lower_is_digit.
    destruct (Re.in_ranges upper_ranges a), (Re.in_ranges lower_ranges a),
      (word_rest upper_ranges (String c s)), (word_rest lower_ranges (String c s)); reflexivity.
Qed.

(** X27: with the default rules a key is taken by two rules, [env] and the
    yml file, exactly when it is made of digits only (followed or not by one
    line feed). *)
Theorem digits_match_two_default_rules (key : string) :
  target_matches env_rule key && target_matches yml_rule key = true <->
  class_word digit_ranges key.
Proof.
  rewrite andb_true_iff.
  change (target_matches env_rule key)
    with (Re.matches (Re.Seq (Re.Plus (Re.Class false upper_ranges)) Re.Eol) key).
  change (target_matches yml_rule key)
    with (Re.matches (Re.Seq (Re.Plus (Re.Class false lower_ranges)) Re.Eol) key).
  rewrite !matches_class_word, !class_word_iff, <- andb_true_iff.
  destruct key as [|a s]; [reflexivity|]. cbn [is_word].
  rewrite <- word_rest_upper_lower, <- upper_and_lower_is_digit.
  destruct (Re.in_ranges upper_ranges a), (Re.in_ranges lower_ranges a),
    (word_rest upper_ranges s), (word_rest lower_ranges s); reflexivity.
Qed.

(** * The loop that writes, and the whole of [save_config_properties] *)

(** X28: the rules are written in the order of the list, and the loop
    stops at the first rule that fails: writing [ts1 ++ ts2] is writing
    [ts1] and then, when that returned, [ts2] in the world it left; when
    [ts1] ends with an exception, what it wrote stays and [ts2] is not
    written. *)
Theorem write_targets_in_order (ts1 ts2 : list target) (w : world) :
  write_targets (ts1 ++ ts2) w =
    match write_targets ts1 w with
    | (Returned _, w1) => write_targets ts2 w1
    | (Raised e, w1) => (Raised e, w1)
    | (Exited n, w1) => (Exited n, w1)
    end.
Proof.
  unfold write_targets. revert w. induction ts1 as [|t ts1 IH]; intros w; [reflexivity|].
  cbn [app for_each]. rewrite !bind_unfold.
  destruct (write_target t w) as [[[] | e | n] w1]; [apply IH | reflexivity | reflexivity].
Qed.

(** X29: the format inferred from a path that holds a dot is the text after
    its last dot: the path is the stem, a dot and the format, and the format
    holds no dot. *)
Theorem inferred_format_splits_the_path (t : target) (path : string) :
  t_format t = None ->
  Py.contains "." path = true ->
  exists stem, path = stem +:+ "." +:+ file_format t path
               /\ Py.contains "." (file_format t path) = false.
Proof.
  intros Hf Hc. unfold file_format, Py.rsplit1. rewrite Hf.
  assert (H : forall s, Py.contains "." s = true ->
            exists a b, Py.rpartition "." s = Some (a, b)
                        /\ s = a +:+ String "." b /\ Py.contains "." b = false).
  { induction s as [|c s IH]; [discriminate|]. cbn [Py.contains Py.rpartition].
    destruct (Py.contains "." s) eqn:Hs.
    - intros _. destruct (IH eq_refl) as (a & b & -> & -> & Hb).
      exists (String c a), b. auto.
    - rewrite (rpartition_none _ _ Hs), orb_false_r. intros Hc'. rewrite Hc'.
      apply Ascii.eqb_eq in Hc'. subst c. exists "", s. auto. }
  destruct (H path Hc) as (a & b & -> & -> & Hb). exists a. cbn. auto.
Qed.

Lemma inferred_format_splits_the_path_witness :
  exists stem, "conf.d/out.yml" = stem +:+ "." +:+ file_format out_yml_rule "conf.d/out.yml"
               /\ Py.contains "." (file_format out_yml_rule "conf.d/out.yml") = false.
Proof.
  exact (inferred_format_splits_the_path out_yml_rule "conf.d/out.yml" eq_refl eq_refl).
Defined.

Lemma routed_map (l : list (string * scalar)) (ts : list target) :
  routed l ts = map (fold_left (fun t kv => route1 kv.1 kv.2 t) l) ts.
Proof.
  unfold routed. revert ts. induction l as [|kv l IH]; intros ts; simpl.
  - now rewrite map_id.
  - now rewrite IH, map_map.
Qed.

Lemma fold_route1_no_match (l : list (string * scalar)) (t : target) :
  (forall kv, In kv l -> target_matches t kv.1 = false) ->
  fold_left (fun t kv => route1 kv.1 kv.2 t) l t = t.
Proof.
  induction l as [|kv l IH]; intros H; simpl; [reflexivity|].
  unfold route1 at 2. rewrite (H kv) by now left. apply IH. intros kv' Hin. apply H. now right.
Qed.

Lemma fold_route1_match (l : list (string * scalar)) (t : target) (k : string) (v : scalar) :
  In (k, v) l -> target_matches t k = true ->
  bucket (fold_left (fun t kv => route1 kv.1 kv.2 t) l t) <> [].
Proof.
  intros Hin Hm Hempty.
  destruct (last_binding_is_some _ _ _ Hin) as [v' Hl].
  pose proof (bucket_fold_any k l t) as H. rewrite Hm, Hl, Hempty in H. discriminate.
Qed.

Lemma write_target_nothing (t : target) (w : world) :
  bucket t = [] -> write_target t w = (Returned tt, w).
Proof. intros Hb. unfold write_target. unfold bucket in Hb. now rewrite Hb. Qed.

(** A default file rule after routing: same destination and format. *)
Lemma routed_file_rule (l : list (string * scalar)) (t : target) (d f : string) :
  t_target t = Some d -> t_format t = Some f ->
  let t' := fold_left (fun t kv => route1 kv.1 kv.2 t) l t in
  t_target t' = Some d /\ t_format t' = Some f.
Proof.
  intros Hd Hf. cbn zeta. destruct (fold_route1_keeps l t) as (_ & Hf' & Ht').
  split; [|congruence]. destruct Ht' as [E | [E _]]; congruence.
Qed.

(** X30: with the default rules, [save_config_properties] returns exactly
    when no key of the configuration matches the filter of one of the two
    file rules; as soon as one key does, writing its bucket raises an
    exception that ends the run. *)
Theorem default_rules_complete_without_file_keys (json_dumps : vcap_config -> string)
    (vc : vcap_config) (log_level : Z) (service : instance)
    (srcs : list property_source) (w : world) :
  targets vc = None ->
  (exists vc' w',
     save_config_properties json_dumps vc log_level service (Config (Some srcs)) w
       = (Returned vc', w'))
  <-> (forall s k v, In s srcs -> In (k, v) (default [] (source s)) ->
         target_matches properties_rule k = false /\ target_matches yml_rule k = false).
Proof.
  intros Ht. unfold save_config_properties. rewrite Ht. cbn [default from_option id].
  destruct (route_all_spec log_level (Config (Some srcs)) default_targets w) as (w1 & E & _).
  rewrite bind_unfold, E, bind_unfold. clear E.
  set (l := items_in_order (Config (Some srcs))).
  assert (Hin : forall kv, In kv l <-> exists s, In s srcs /\ In kv (default [] (source s)))
    by (intros kv; apply in_items_in_order).
  rewrite routed_map. unfold default_targets. cbn [map].
  set (f := fold_left (fun t kv => route1 kv.1 kv.2 t) l).
  change ([f env_rule; f properties_rule; f yml_rule])
    with ([f env_rule] ++ [f properties_rule; f yml_rule])%list.
  rewrite write_targets_in_order.
  rewrite (write_targets_env [f env_rule]).
  2:{ constructor; [|constructor]. unfold f.
      destruct (fold_route1_keeps l env_rule) as (_ & _ & [H | [H _]]).
      - exact H.
      - discriminate H. }
  set (w2 := written Stdout _ w1).
  destruct (routed_file_rule l properties_rule "file:config-server.properties" "properties"
              eq_refl eq_refl) as [Hpt Hpf].
  destruct (routed_file_rule l yml_rule "file:config-server.yml" "yml" eq_refl eq_refl)
    as [Hyt Hyf].
  fold f in Hpt, Hpf, Hyt, Hyf.
  assert (Hfmt : forall t path fmt, t_format t = Some fmt -> file_format t path = fmt).
  { intros t path fmt H. unfold file_format. now rewrite H. }
  split.
  - intros (vc' & w' & Hret) s k v Hs Hk.
    assert (Hkl : In (k, v) l) by (apply Hin; eauto).
    assert (Hp : target_matches properties_rule k = false).
    { destruct (target_matches properties_rule k) eqn:Hm; [exfalso|reflexivity].
      pose proof (fold_route1_match l properties_rule k v Hkl Hm) as Hne. fold f in Hne.
      destruct (write_target_file_raises (f properties_rule) "config-server.properties" w2)
        as (e & Hw & _);
        [exact Hpt | exact Hne | now rewrite (Hfmt _ _ "properties") |].
      unfold write_targets in Hret. cbn [for_each] in Hret.
      rewrite bind_unfold, Hw in Hret. discriminate. }
    split; [exact Hp|].
    destruct (target_matches yml_rule k) eqn:Hm; [exfalso|reflexivity].
    pose proof (fold_route1_match l yml_rule k v Hkl Hm) as Hne. fold f in Hne.
    unfold write_targets in Hret. cbn [for_each] in Hret. rewrite bind_unfold in Hret.
    destruct (write_target (f properties_rule) w2) as [[[] | e | n] w3] eqn:Hw1;
      try discriminate.
    destruct (write_target_file_raises (f yml_rule) "config-server.yml" w3) as (e & Hw & _);
      [exact Hyt | exact Hne | now rewrite (Hfmt _ _ "yml") |].
    rewrite bind_unfold, Hw in Hret. discriminate.
  - intros Hnone.
    assert (Hp : f properties_rule = properties_rule).
    { apply fold_route1_no_match. intros [k v] Hkv. apply Hin in Hkv as (s & Hs & Hk).
      apply (Hnone s k v Hs Hk). }
    assert (Hy : f yml_rule = yml_rule).
    { apply fold_route1_no_match. intros [k v] Hkv. apply Hin in Hkv as (s & Hs & Hk).
      apply (Hnone s k v Hs Hk). }
    rewrite Hp, Hy. unfold write_targets. cbn [for_each].
    rewrite bind_unfold, write_target_nothing by reflexivity.
    rewrite bind_unfold, write_target_nothing by reflexivity.
    cbn. eauto.
Qed.

Lemma default_rules_complete_without_file_keys_witness :
  (exists vc' w',
     save_config_properties (fun _ => "{}") no_vcap_config 1 bound_service
       (Config (Some env_keys_config)) empty_world = (Returned vc', w'))
  <-> (forall s k v, In s env_keys_config -> In (k, v) (default [] (source s)) ->
         target_matches properties_rule k = false /\ target_matches yml_rule k = false).
Proof.
  exact (default_rules_complete_without_file_keys (fun _ => "{}") no_vcap_config 1 bound_service
           env_keys_config empty_world eq_refl).
Defined.
